(** * cred: exporting AWS credentials as shell statements

    A shallow embedding of [main.go]: the root (export) command, the
    [expiry] command and the [clear] command, together with the parts of
    Go's [os], [fmt], [strings], [errors] and [time] packages that the three
    commands call.  The external collaborators (the SDK's configuration
    loader, its credential provider and the STS identity call) are
    arguments of the model; the process environment is a finite map. *)

From Stdlib Require Import ZArith Ascii String List Lia Bool.
From stdpp Require Import base option gmap strings list fin_maps.

Local Open Scope Z_scope.

(** ** Strings as Go uses them *)

Module GoString.

(** [s[i:j]] for [0 <= i <= j <= len(s)] *)
Definition slice (s : string) (i j : nat) : string :=
  String.substring i (j - i) s.

(** [s[i:]] *)
Fixpoint drop (i : nat) (s : string) : string :=
  match i, s with
  | O, _ => s
  | S i', String _ s' => drop i' s'
  | S _, EmptyString => EmptyString
  end.

Definition byte (c : ascii) : Z := Z.of_N (N_of_ascii c).

(** the line feed, ["\n"] *)
Definition LF : string := String "010" EmptyString.

(** [strings.Join(elems, sep)] *)
Fixpoint Join (elems : list string) (sep : string) : string :=
  match elems with
  | [] => ""
  | [x] => x
  | x :: rest => x +:+ sep +:+ Join rest sep
  end.

(** [strings.Contains(s, substr)], as a proposition *)
Definition Contains (s substr : string) : Prop :=
  exists pre post, s = pre +:+ substr +:+ post.

(** [strings.HasPrefix(s, prefix)], as a proposition *)
Definition HasPrefix (s pre : string) : Prop :=
  exists post, s = pre +:+ post.

End GoString.

(** ** Package [time]: the functions behind [Format], [Parse] and [Local]

    The definitions follow package time as it is in Go 1.20 to 1.22
    ([absDate], [daysSinceEpoch], [absClock], [absWeekday], [Date],
    [appendInt], [getnum], [parseNanoseconds], [parseRFC3339] and the
    layout-driven [parse] specialised to the RFC3339 layout); later versions
    compute the same dates by other means.  Go counts
    absolute seconds from a year that is 1 modulo 400 and far in the past so
    that its unsigned arithmetic never goes negative; here absolute seconds
    are counted from 0001-01-01T00:00:00Z in [Z] with floor division, which
    shifts that epoch by a whole number of 400-year cycles and gives the same
    dates. *)

Module time.

Import GoString.

Definition secondsPerMinute : Z := 60.
Definition secondsPerHour : Z := 3600.
Definition secondsPerDay : Z := 86400.
Definition secondsPerWeek : Z := 604800.
Definition daysPer400Years : Z := 146097.
Definition daysPer100Years : Z := 36524.
Definition daysPer4Years : Z := 1461.

(** seconds from 0001-01-01 to 1970-01-01 *)
Definition unixToInternal : Z :=
  (1969 * 365 + 1969 / 4 - 1969 / 100 + 1969 / 400) * secondsPerDay.

(** A zone: abbreviation and offset in seconds east of UTC. *)
Record Zone := { zname : string; zoffset : Z }.

(** A [*Location] is used only through [lookup(sec)], the zone in force at
    a Unix time. *)
Definition Location := Z -> Zone.

Definition UTC : Location := fun _ => {| zname := "UTC"; zoffset := 0 |}.

Definition FixedZone (name : string) (offset : Z) : Location :=
  fun _ => {| zname := name; zoffset := offset |}.

(** A [time.Time]: an instant (seconds since the Unix epoch and nanoseconds
    within the second) and the location it is presented in. *)
Record Time := { unixSec : Z; nsec : Z; loc : Location }.

(** [t.Equal(u)]: the same instant, whatever the locations. *)
Definition Equal (t u : Time) : Prop :=
  unixSec t = unixSec u /\ nsec t = nsec u.

(** [t.In(loc)] and [t.Local()], the machine's zone being [localLoc]. *)
Definition In (t : Time) (l : Location) : Time :=
  {| unixSec := unixSec t; nsec := nsec t; loc := l |}.

Definition Local (localLoc : Location) (t : Time) : Time := In t localLoc.

(** [t.locabs()]: zone name, offset, and absolute seconds of the wall clock *)
Definition locabs (t : Time) : string * Z * Z :=
  let z := loc t (unixSec t) in
  (zname z, zoffset z, unixSec t + zoffset z + unixToInternal).

(** [t.Zone()]: the abbreviation and offset in force at [t] *)
Definition Zone_of (t : Time) : string * Z :=
  let '(name, offset, _) := locabs t in (name, offset).

Definition isLeap (year : Z) : bool :=
  (Z.rem year 4 =? 0) && (negb (Z.rem year 100 =? 0) || (Z.rem year 400 =? 0)).

(** [daysBefore[m]]: days in a non-leap year before month [m+1] *)
Definition daysBefore (m : Z) : Z :=
  match m with
  | 0 => 0
  | 1 => 31
  | 2 => 59
  | 3 => 90
  | 4 => 120
  | 5 => 151
  | 6 => 181
  | 7 => 212
  | 8 => 243
  | 9 => 273
  | 10 => 304
  | 11 => 334
  | _ => 365
  end.

Definition daysIn (m year : Z) : Z :=
  if (m =? 2) && isLeap year then 29
  else daysBefore m - daysBefore (m - 1).

(** [absDate(abs, true)]: year, month, day of the month *)
Definition absDate (abs : Z) : Z * Z * Z :=
  let d := abs / secondsPerDay in
  let n := d / daysPer400Years in
  let y := 400 * n in
  let d := d - daysPer400Years * n in
  let n := d / daysPer100Years in
  let n := n - Z.shiftr n 2 in
  let y := y + 100 * n in
  let d := d - daysPer100Years * n in
  let n := d / daysPer4Years in
  let y := y + 4 * n in
  let d := d - daysPer4Years * n in
  let n := d / 365 in
  let n := n - Z.shiftr n 2 in
  let y := y + n in
  let d := d - 365 * n in
  let year := y + 1 in
  let day := d in
  if isLeap year && (day =? 31 + 29 - 1) then (year, 2, 29)
  else
    let day := if isLeap year && (31 + 29 - 1 <? day) then day - 1 else day in
    let month := day / 31 in
    let e := daysBefore (month + 1) in
    let '(month, begin) :=
      if e <=? day then (month + 1, e) else (month, daysBefore month) in
    (year, month + 1, day - begin + 1).

(** [t.Year()] *)
Definition Year (t : Time) : Z :=
  let '(_, _, abs) := locabs t in
  let '(year, _, _) := absDate abs in year.

(** [absClock(abs)]: hour, minute, second *)
Definition absClock (abs : Z) : Z * Z * Z :=
  let sec := abs mod secondsPerDay in
  let hour := sec / secondsPerHour in
  let sec := sec - hour * secondsPerHour in
  let min := sec / secondsPerMinute in
  let sec := sec - min * secondsPerMinute in
  (hour, min, sec).

(** [absWeekday(abs)]: 0 is Sunday; 0001-01-01 is a Monday *)
Definition absWeekday (abs : Z) : Z :=
  ((abs + 1 * secondsPerDay) mod secondsPerWeek) / secondsPerDay.

(** [daysSinceEpoch(year)]: days from 0001-01-01 to the start of [year] *)
Definition daysSinceEpoch (year : Z) : Z :=
  let y := year - 1 in
  let n := y / 400 in
  let y := y - 400 * n in
  let d := daysPer400Years * n in
  let n := y / 100 in
  let y := y - 100 * n in
  let d := d + daysPer100Years * n in
  let n := y / 4 in
  let y := y - 4 * n in
  let d := d + daysPer4Years * n in
  d + 365 * y.

(** [norm(hi, lo, base)] *)
Definition norm (hi lo base : Z) : Z * Z := (hi + lo / base, lo mod base).

(** [Date(year, month, day, hour, min, sec, nsec, UTC)] *)
Definition Date (year month day hour min sec ns : Z) : Time :=
  let '(year, m) := norm year (month - 1) 12 in
  let month := m + 1 in
  let '(sec, ns) := norm sec ns 1000000000 in
  let '(min, sec) := norm min sec 60 in
  let '(hour, min) := norm hour min 60 in
  let '(day, hour) := norm day hour 24 in
  let d := daysSinceEpoch year in
  let d := d + daysBefore (month - 1) in
  let d := if isLeap year && (3 <=? month) then d + 1 else d in
  let d := d + (day - 1) in
  let abs := d * secondsPerDay in
  let abs := abs + hour * secondsPerHour + min * secondsPerMinute + sec in
  {| unixSec := abs - unixToInternal; nsec := ns; loc := UTC |}.

(** [t.addSec(d)] and [t.setLoc(loc)] *)
Definition addSec (t : Time) (d : Z) : Time :=
  {| unixSec := unixSec t + d; nsec := nsec t; loc := loc t |}.

Definition setLoc (t : Time) (l : Location) : Time :=
  {| unixSec := unixSec t; nsec := nsec t; loc := l |}.

(** *** Formatting *)

Definition digitChar (d : Z) : ascii := ascii_of_N (Z.to_N (48 + d)).

(** the digits of [u], most significant first; [buf] has room for 20 *)
Fixpoint utoa (room : nat) (u : Z) (acc : string) : string :=
  match room with
  | O => acc
  | S room' =>
      let acc' := String (digitChar (u mod 10)) acc in
      if u <? 10 then acc' else utoa room' (u / 10) acc'
  end.

Fixpoint zeros (n : nat) : string :=
  match n with
  | O => ""
  | S n' => String "0" (zeros n')
  end.

(** [appendInt(b, x, width)]: sign, zero padding to [width] digits, digits *)
Definition appendInt (x : Z) (width : nat) : string :=
  let sign := if x <? 0 then "-" else "" in
  let digits := utoa 20 (Z.abs x) "" in
  sign +:+ zeros (width - String.length digits) +:+ digits.

Definition shortDayNames (wd : Z) : string :=
  match wd with
  | 0 => "Sun" | 1 => "Mon" | 2 => "Tue" | 3 => "Wed"
  | 4 => "Thu" | 5 => "Fri" | _ => "Sat"
  end.

Definition shortMonthNames (m : Z) : string :=
  match m with
  | 1 => "Jan" | 2 => "Feb" | 3 => "Mar" | 4 => "Apr"
  | 5 => "May" | 6 => "Jun" | 7 => "Jul" | 8 => "Aug"
  | 9 => "Sep" | 10 => "Oct" | 11 => "Nov" | _ => "Dec"
  end.

(** the [Z07:00] element of a layout *)
Definition formatISO8601ColonTZ (offset : Z) : string :=
  if offset =? 0 then "Z"
  else
    let zone := Z.quot offset 60 in
    let sign := if zone <? 0 then "-" else "+" in
    let zone := Z.abs zone in
    sign +:+ appendInt (Z.quot zone 60) 2 +:+ ":" +:+ appendInt (Z.rem zone 60) 2.

(** the [MST] element of a layout: the abbreviation, or [-0700] without one *)
Definition formatTZ (name : string) (offset : Z) : string :=
  if negb (String.eqb name "") then name
  else
    let zone := Z.quot offset 60 in
    let sign := if zone <? 0 then "-" else "+" in
    let zone := Z.abs zone in
    sign +:+ appendInt (Z.quot zone 60) 2 +:+ appendInt (Z.rem zone 60) 2.

(** [t.Format(time.RFC3339)], layout [2006-01-02T15:04:05Z07:00] *)
Definition Format_RFC3339 (t : Time) : string :=
  let '(_, offset, abs) := locabs t in
  let '(year, month, day) := absDate abs in
  let '(hour, min, sec) := absClock abs in
  appendInt year 4 +:+ "-" +:+ appendInt month 2 +:+ "-" +:+ appendInt day 2
  +:+ "T" +:+ appendInt hour 2 +:+ ":" +:+ appendInt min 2 +:+ ":"
  +:+ appendInt sec 2 +:+ formatISO8601ColonTZ offset.

(** [t.Format(time.RFC1123)], layout [Mon, 02 Jan 2006 15:04:05 MST] *)
Definition Format_RFC1123 (t : Time) : string :=
  let '(name, offset, abs) := locabs t in
  let '(year, month, day) := absDate abs in
  let '(hour, min, sec) := absClock abs in
  shortDayNames (absWeekday abs) +:+ ", " +:+ appendInt day 2 +:+ " "
  +:+ shortMonthNames month +:+ " " +:+ appendInt year 4 +:+ " "
  +:+ appendInt hour 2 +:+ ":" +:+ appendInt min 2 +:+ ":"
  +:+ appendInt sec 2 +:+ " " +:+ formatTZ name offset.

(** *** Parsing *)

Definition isDigitByte (c : ascii) : bool := (48 <=? byte c) && (byte c <=? 57).

(** [isDigit(s, i)]: false past the end *)
Definition isDigit (s : string) (i : nat) : bool :=
  match String.get i s with
  | Some c => isDigitByte c
  | None => false
  end.

(** [s[i] == c], for an index the caller has checked *)
Definition byteIs (s : string) (i : nat) (c : ascii) : bool :=
  match String.get i s with
  | Some c' => Ascii.eqb c' c
  | None => false
  end.

Definition commaOrPeriod (c : ascii) : bool :=
  Ascii.eqb c "." || Ascii.eqb c ",".

(** the loop [x = x*10 + int(c) - '0'] over the bytes of [s], failing on a
    byte that is not a digit *)
Fixpoint digitsValue (s : string) (x : Z) : option Z :=
  match s with
  | EmptyString => Some x
  | String c s' =>
      if isDigitByte c then digitsValue s' (x * 10 + byte c - 48) else None
  end.

(** the closure [parseUint(s, min, max)] of [parseRFC3339] *)
Definition parseUint (s : string) (min max : Z) : option Z :=
  match digitsValue s 0 with
  | Some x => if (x <? min) || (max <? x) then None else Some x
  | None => None
  end.

(** [atoi(s)]; its callers pass at most ten bytes, so [leadingInt] cannot
    overflow *)
Definition atoi (s : string) : option Z :=
  match s with
  | String "-" s' => x ← digitsValue s' 0; Some (- x)
  | String "+" s' => digitsValue s' 0
  | _ => digitsValue s 0
  end.

(** [getnum(s, fixed)]: one or two digits ([fixed] forces two) and the rest *)
Definition getnum (s : string) (fixed : bool) : option (Z * string) :=
  if negb (isDigit s 0) then None
  else if negb (isDigit s 1) then
    if fixed then None
    else match s with
         | String c rest => Some (byte c - 48, rest)
         | EmptyString => None
         end
  else match s with
       | String c1 (String c2 rest) =>
           Some ((byte c1 - 48) * 10 + (byte c2 - 48), rest)
       | _ => None
       end.

(** the number of digit bytes at the front of [s] *)
Fixpoint digitRun (s : string) : nat :=
  match s with
  | String c s' => if isDigitByte c then S (digitRun s') else O
  | EmptyString => O
  end.

(** [parseNanoseconds(value, nbytes)] for a [value] that starts with a
    period or comma followed by digits, as both callers guarantee *)
Definition parseNanoseconds (value : string) (nbytes : nat) : option Z :=
  match value with
  | String c _ =>
      if negb (commaOrPeriod c) then None
      else
        let nbytes := if (10 <? nbytes)%nat then 10%nat else nbytes in
        ns ← atoi (slice value 1 nbytes);
        Some (ns * 10 ^ Z.of_nat (10 - nbytes))
  | EmptyString => None
  end.

(** the zone of the parsed time: the local zone when its offset at that
    instant is the parsed one, a nameless fixed zone otherwise *)
Definition zoned (t : Time) (zoneOffset : Z) (local : Location) : Time :=
  let t := addSec t (- zoneOffset) in
  if zoffset (local (unixSec t)) =? zoneOffset then setLoc t local
  else setLoc t (FixedZone "" zoneOffset).

(** [parseRFC3339(s, local)], the fast path of [Parse] *)
Definition parseRFC3339 (s : string) (local : Location) : option Time :=
  if (String.length s <? 19)%nat then None
  else
    year ← parseUint (slice s 0 4) 0 9999;
    month ← parseUint (slice s 5 7) 1 12;
    day ← parseUint (slice s 8 10) 1 (daysIn month year);
    hour ← parseUint (slice s 11 13) 0 23;
    min ← parseUint (slice s 14 16) 0 59;
    sec ← parseUint (slice s 17 19) 0 59;
    if negb (byteIs s 4 "-" && byteIs s 7 "-" && byteIs s 10 "T"
             && byteIs s 13 ":" && byteIs s 16 ":") then None
    else
      let s := drop 19 s in
      let '(ns, s) :=
        if (2 <=? String.length s)%nat && byteIs s 0 "." && isDigit s 1 then
          let n := (2 + digitRun (drop 2 s))%nat in
          (default 0 (parseNanoseconds s n), drop n s)
        else (0, s) in
      let t := Date year month day hour min sec ns in
      if (String.length s =? 1)%nat && byteIs s 0 "Z" then Some t
      else if negb (String.length s =? 6)%nat then None
      else
        hr ← parseUint (slice s 1 3) 0 23;
        mm ← parseUint (slice s 4 6) 0 59;
        if negb ((byteIs s 0 "-" || byteIs s 0 "+") && byteIs s 3 ":") then None
        else
          let zoneOffset := (hr * 60 + mm) * 60 in
          let zoneOffset := if byteIs s 0 "-" then - zoneOffset else zoneOffset in
          Some (zoned t zoneOffset local).

(** [skip(value, prefix)] for a one-byte prefix that is not a space *)
Definition skip (value : string) (c : ascii) : option string :=
  match value with
  | String c' rest => if Ascii.eqb c' c then Some rest else None
  | EmptyString => None
  end.

(** The zone element [Z07:00] of [parse]: [inl tt] for [Z], [inr offset]
    for a numeric zone, and the rest of the input. *)
Definition parseISO8601ColonTZ (value : string)
  : option ((unit + Z) * string) :=
  if (1 <=? String.length value)%nat && byteIs value 0 "Z" then
    Some (inl tt, drop 1 value)
  else if (String.length value <? 6)%nat then None
  else if negb (byteIs value 3 ":") then None
  else
    '(hr, _) ← getnum (slice value 1 3) true;
    '(mm, _) ← getnum (slice value 4 6) true;
    '(ss, _) ← getnum "00" true;
    if (24 <? hr) || (60 <? mm) || (60 <? ss) then None
    else
      let zoneOffset := (hr * 60 + mm) * 60 + ss in
      if byteIs value 0 "+" then Some (inr zoneOffset, drop 6 value)
      else if byteIs value 0 "-" then Some (inr (- zoneOffset), drop 6 value)
      else None.

(** [parse(RFC3339, value, UTC, local)]: the layout-driven parser, its loop
    over the elements of the layout [2006-01-02T15:04:05Z07:00] unrolled *)
Definition parse_RFC3339 (value : string) (local : Location) : option Time :=
  (* stdLongYear *)
  if (String.length value <? 4)%nat || negb (isDigit value 0) then None
  else
    year ← atoi (slice value 0 4);
    let value := drop 4 value in
    (* "-", stdZeroMonth *)
    value ← skip value "-";
    '(month, value) ← getnum value true;
    if (month <=? 0) || (12 <? month) then None
    else
      (* "-", stdZeroDay *)
      value ← skip value "-";
      '(day, value) ← getnum value true;
      (* "T", stdHour *)
      value ← skip value "T";
      '(hour, value) ← getnum value false;
      if (hour <? 0) || (24 <=? hour) then None
      else
        (* ":", stdZeroMinute *)
        value ← skip value ":";
        '(min, value) ← getnum value true;
        if (min <? 0) || (60 <=? min) then None
        else
          (* ":", stdZeroSecond, with a fractional second the layout lacks *)
          value ← skip value ":";
          '(sec, value) ← getnum value true;
          if (sec <? 0) || (60 <=? sec) then None
          else
            '(ns, value) ←
              match value with
              | String c _ =>
                  if (2 <=? String.length value)%nat && commaOrPeriod c
                     && isDigit value 1 then
                    let n := (2 + digitRun (drop 2 value))%nat in
                    ns ← parseNanoseconds value n;
                    Some (ns, drop n value)
                  else Some (0, value)
              | EmptyString => Some (0, value)
              end;
            (* stdISO8601ColonTZ, then the end of the layout *)
            '(z, value) ← parseISO8601ColonTZ value;
            if negb (String.length value =? 0)%nat then None
            else if (day <? 1) || (daysIn month year <? day) then None
            else
              let t := Date year month day hour min sec ns in
              match z with
              | inl _ => Some t
              | inr zoneOffset => Some (zoned t zoneOffset local)
              end.

(** [time.Parse(time.RFC3339, value)] on a machine whose zone is [local] *)
Definition Parse_RFC3339 (local : Location) (value : string) : option Time :=
  match parseRFC3339 value local with
  | Some t => Some t
  | None => parse_RFC3339 value local
  end.

End time.

(** ** Package [os]: the process environment *)

Module os.

(** The environment maps a name to its value.  A variable that is set to
    the empty string is present with value [""]; an unset variable is
    absent.  [os.LookupEnv] tells the two apart, [os.Getenv] does not. *)
Abbreviation Env := (gmap string string).

Definition LookupEnv (env : Env) (key : string) : option string := env !! key.

Definition Getenv (env : Env) (key : string) : string :=
  default "" (env !! key).

(** [os.Setenv(key, value)] for a well-formed key *)
Definition Setenv (key value : string) (env : Env) : Env := <[key := value]> env.

Definition Unsetenv (key : string) (env : Env) : Env := delete key env.

End os.

(** ** Errors: [errors.As], [fmt.Errorf] and [smithy.GenericAPIError] *)

Module errors.

Inductive error : Type :=
  | GenericAPIError (Code Message : string)
      (** [*smithy.GenericAPIError] *)
  | errorString (text : string)
      (** an error without [Unwrap], such as [fmt.Errorf] without [%w] *)
  | wrapError (msg : string) (err : error).
      (** an error with [Unwrap], such as [fmt.Errorf] with [%w] or the
          SDK's operation and response errors *)

(** [err.Error()] *)
Definition Error (e : error) : string :=
  match e with
  | GenericAPIError code message => "api error " +:+ code +:+ ": " +:+ message
  | errorString text => text
  | wrapError msg _ => msg
  end.

(** [err.Unwrap()] *)
Definition Unwrap (e : error) : option error :=
  match e with
  | wrapError _ err => Some err
  | _ => None
  end.

(** [errors.As(err, &apiErr)] for [apiErr *smithy.GenericAPIError]: the first
    error of that type in the chain, as (Code, Message) *)
Fixpoint As_GenericAPIError (e : error) : option (string * string) :=
  match e with
  | GenericAPIError code message => Some (code, message)
  | errorString _ => None
  | wrapError _ err => As_GenericAPIError err
  end.

(** [fmt.Errorf(format)] without verbs, and [fmt.Errorf(prefix + "%w", err)] *)
Definition Errorf (text : string) : error := errorString text.

Definition Errorf_w (pre : string) (err : error) : error :=
  wrapError (pre +:+ Error err) err.

End errors.

(** ** The shell fragment the tool's output is written in

    Statements end at a [;] or a newline; words are separated by blanks.
    [unset NAME...] removes variables and [export NAME=VALUE...] sets them.
    No quoting or expansion is modelled: the tool writes none. *)

Module sh.

Import os.

Inductive stmt : Type :=
  | Unset (names : list string)
  | Export (assigns : list (string * string)).

(** the fields of [s] between bytes for which [sep] holds, empty ones
    included; [cur] is the field being read, reversed *)
Fixpoint fields (sep : ascii -> bool) (s : string) (cur : string) : list string :=
  match s with
  | EmptyString => [String.rev cur]
  | String c s' =>
      if sep c then String.rev cur :: fields sep s' ""
      else fields sep s' (String c cur)
  end.

Definition nonEmpty (s : string) : bool :=
  match s with
  | EmptyString => false
  | _ => true
  end.

Definition isBlank (c : ascii) : bool :=
  Ascii.eqb c " " || Ascii.eqb c "009".

Definition isTerminator (c : ascii) : bool :=
  Ascii.eqb c ";" || Ascii.eqb c "010".

Definition words (s : string) : list string :=
  filter (fun w => Is_true (nonEmpty w)) (fields isBlank s "").

(** [NAME=VALUE], split at the first [=] *)
Fixpoint assignment (w : string) (name : string) : option (string * string) :=
  match w with
  | EmptyString => None
  | String c w' =>
      if Ascii.eqb c "=" then Some (String.rev name, w')
      else assignment w' (String c name)
  end.

Definition parseStmt (ws : list string) : option stmt :=
  match ws with
  | "unset" :: names => Some (Unset names)
  | "export" :: rest =>
      assigns ← mapM (fun w => assignment w "") rest; Some (Export assigns)
  | _ => None
  end.

(** the statements of a script; blank statements are skipped *)
Definition parse (script : string) : option (list stmt) :=
  mapM parseStmt
    (filter (fun ws => ws <> []) (words <$> fields isTerminator script "")).

Definition exec (env : Env) (st : stmt) : Env :=
  match st with
  | Unset names => foldl (fun e k => Unsetenv k e) env names
  | Export assigns => foldl (fun e kv => Setenv kv.1 kv.2 e) env assigns
  end.

(** [eval "$(...)"]: the environment after the script, if it parses *)
Definition eval (script : string) (env : Env) : option Env :=
  stmts ← parse script; Some (foldl exec env stmts).

End sh.

(** ** The SDK types the commands read *)

Module aws.

Import errors.

(** [aws.Credentials] *)
Record Credentials := {
  AccessKeyID : string;
  SecretAccessKey : string;
  SessionToken : string;
  Expires : time.Time;
  AccountID : string
}.

(** [aws.Config], as far as the export command reads it *)
Record Config := { Region : string }.

(** [sts.GetCallerIdentityOutput]; its fields are [*string] *)
Record GetCallerIdentityOutput := {
  Account : option string;
  Arn : option string;
  UserId : option string
}.

(** [config.WithSharedConfigProfile(profile)] *)
Inductive LoadOption : Type :=
  | WithSharedConfigProfile (profile : string).

(** The three calls into the SDK.  What they answer is outside the
    repository; a command sees them only through these results. *)
Record SDK := {
  LoadDefaultConfig : os.Env -> list LoadOption -> error + Config;
  Retrieve : Config -> error + Credentials;
  GetCallerIdentity : Config -> error + GetCallerIdentityOutput
}.

End aws.

(** ** [main.go] *)

Module cred.

Import GoString os errors aws.

Definition accessKeyID : string := "AWS_ACCESS_KEY_ID".
Definition secretAccessKey : string := "AWS_SECRET_ACCESS_KEY".
Definition sessionToken : string := "AWS_SESSION_TOKEN".
Definition sessionExpiresAt : string := "AWS_SESSION_EXPIRES_AT".
Definition accountID : string := "AWS_ACCOUNT_ID".
Definition defaultRegion : string := "AWS_DEFAULT_REGION".
Definition region : string := "AWS_REGION".

Definition allVars : list string :=
  [ accessKeyID; secretAccessKey; sessionToken; sessionExpiresAt;
    accountID; defaultRegion; region ].

(** [fmt.Sprintf("%s=%s", key, val)] *)
Definition set (key val : string) : string := key +:+ "=" +:+ val.

(** [fmt.Sprintf("unset %s;", key)] *)
Definition unset (key : string) : string := "unset " +:+ key +:+ ";".

(** [s == ""] *)
Definition isEmpty (s : string) : bool :=
  match s with
  | EmptyString => true
  | String _ _ => false
  end.

(** How a command's [RunE] ends. *)
Inductive status : Type :=
  | ok
  | failed (err : error)
  | panicked.
      (** a nil pointer dereference *)

(** What a run leaves behind: the text written to standard output, how
    [RunE] ended, and the process environment. *)
Record outcome := {
  stdout : string;
  result : status;
  environ : Env
}.

(** [os.Exit] status of [main] *)
Definition exitCode (o : outcome) : Z :=
  match result o with
  | ok => 0
  | failed _ => 1
  | panicked => 2
  end.

(** [getCallerIdentity(ctx, cfg)] *)
Definition getCallerIdentity (sdk : SDK) (cfg : Config)
  : error + GetCallerIdentityOutput :=
  match GetCallerIdentity sdk cfg with
  | inl err =>
      match As_GenericAPIError err with
      | Some (code, message) =>
          inl (Errorf ("Invalid credentials: " +:+ code +:+ ": " +:+ message))
      | None => inl (Errorf_w "Invalid credentials: " err)
      end
  | inr data => inr data
  end.

(** the loop [for _, key := range allVars() { os.Setenv(key, "") }] *)
Definition blankAll (env : Env) : Env :=
  foldl (fun e key => Setenv key "" e) env allVars.

(** The two slices the export command fills, lines 95 to 128: [None] when
    [*data.Account] dereferences nil. *)
Definition statements (creds : Credentials) (cfg : Config)
    (data : GetCallerIdentityOutput) : option (list string * list string) :=
  let unsets : list string := [] in
  let exports :=
    [ set accessKeyID (AccessKeyID creds);
      set secretAccessKey (SecretAccessKey creds) ] in
  exports ←
    (if negb (isEmpty (AccountID creds)) then
       Some (exports ++ [set accountID (AccountID creds)])
     else
       account ← Account data;
       Some (exports ++ [set accountID account]));
  let '(exports, unsets) :=
    if negb (isEmpty (Region cfg)) then
      ((exports ++ [set defaultRegion (Region cfg)])
         ++ [set region (Region cfg)], unsets)
    else
      (exports, (unsets ++ [unset defaultRegion]) ++ [unset region]) in
  let '(exports, unsets) :=
    if negb (isEmpty (SessionToken creds)) then
      (exports ++ [ set sessionToken (SessionToken creds);
                    set sessionExpiresAt (time.Format_RFC3339 (Expires creds)) ],
       unsets)
    else
      (exports, unsets ++ [unset sessionToken; unset sessionExpiresAt]) in
  Some (exports, unsets).

(** lines 130 to 133: the text printed from the two slices *)
Definition render (exports unsets : list string) : string :=
  let output := "export " +:+ Join exports " " +:+ LF in
  if (0 <? length unsets)%nat then Join unsets LF +:+ LF +:+ output
  else output.

(** lines 71 to 74: the options built from the [--profile] flag *)
Definition loadOptions (profile : string) : list LoadOption :=
  let opts : list LoadOption := [] in
  if negb (isEmpty profile) then opts ++ [WithSharedConfigProfile profile]
  else opts.

(** [rootCmd.RunE] with the [--profile] flag's value *)
Definition rootCmd (sdk : SDK) (profile : string) (env : Env) : outcome :=
  let opts := loadOptions profile in
  let env := blankAll env in
  let stop st := {| stdout := ""; result := st; environ := env |} in
  match LoadDefaultConfig sdk env opts with
  | inl err => stop (failed err)
  | inr cfg =>
      match Retrieve sdk cfg with
      | inl err => stop (failed err)
      | inr creds =>
          match getCallerIdentity sdk cfg with
          | inl err => stop (failed err)
          | inr data =>
              match statements creds cfg data with
              | None => stop panicked
              | Some (exports, unsets) =>
                  {| stdout := render exports unsets;
                     result := ok;
                     environ := env |}
              end
          end
      end
  end.

Definition notSet : string :=
  "AWS credentials are not set as environment variables".
Definition notTemporary : string :=
  "AWS credentials in environment variables are not temporary".
Definition notRecorded : string :=
  "AWS credentials expiration time has not been recorded in your environment".
Definition notProperlyRecorded : string :=
  "AWS credentials expiration time has not been properly recorded in your environment".

(** [expiryCmd.RunE] on a machine whose zone is [local] *)
Definition expiryCmd (local : time.Location) (env : Env) : outcome :=
  let stop st := {| stdout := ""; result := st; environ := env |} in
  if isEmpty (Getenv env "AWS_ACCESS_KEY_ID") then
    stop (failed (Errorf notSet))
  else if isEmpty (Getenv env "AWS_SESSION_TOKEN") then
    stop (failed (Errorf notTemporary))
  else if isEmpty (Getenv env "AWS_SESSION_EXPIRES_AT") then
    stop (failed (Errorf notRecorded))
  else
    match time.Parse_RFC3339 local (Getenv env "AWS_SESSION_EXPIRES_AT") with
    | None => stop (failed (Errorf notProperlyRecorded))
    | Some expires =>
        {| stdout := time.Format_RFC1123 (time.Local local expires) +:+ LF;
           result := ok;
           environ := env |}
    end.

(** The credential set [creds], configuration [cfg] and identity [data]
    are what the three SDK calls of a run answered. *)
Definition resolved (sdk : SDK) (profile : string) (env : Env)
    (cfg : Config) (creds : Credentials) (data : GetCallerIdentityOutput)
  : Prop :=
  LoadDefaultConfig sdk (blankAll env) (loadOptions profile) = inr cfg
  /\ Retrieve sdk cfg = inr creds
  /\ GetCallerIdentity sdk cfg = inr data.

(** [clearCmd.RunE] *)
Definition clearCmd (env : Env) : outcome :=
  let unsets := foldl (fun acc key => acc ++ [unset key]) [] allVars in
  {| stdout := Join unsets LF +:+ LF;
     result := ok;
     environ := env |}.

End cred.

(** ** Timestamps field by field

    The shapes of the texts [Format] writes, and two devices the proofs
    about the calendar use: a check of a predicate on a range of integers,
    and [absDate] without its first step. *)

Module stamp.

Import time.

(** a two-digit and a four-digit field in front of [rest] *)
Definition two (x : Z) (rest : string) : string :=
  String (digitChar (x / 10)) (String (digitChar (x mod 10)) rest).

Definition four (x : Z) (rest : string) : string :=
  String (digitChar (x / 1000))
    (String (digitChar (x / 100 mod 10))
       (String (digitChar (x / 10 mod 10))
          (String (digitChar (x mod 10)) rest))).

(** [2006-01-02T15:04:05] followed by [zone] *)
Definition dateTime (year month day hour min sec : Z) (zone : string)
  : string :=
  four year (String "-" (two month (String "-" (two day (String "T"
    (two hour (String ":" (two min (String ":" (two sec zone)))))))))).

(** [+07:00] or [-07:00] for hours and minutes *)
Definition numericZone (negative : bool) (hr mm : Z) : string :=
  String (if negative then "-" else "+")%char (two hr (String ":" (two mm ""))).

(** the zone of a timestamp: [Z], or a sign with hours and minutes *)
Inductive designator : Type :=
  | Zulu
  | Numeric (negative : bool) (hr mm : Z).

Definition designatorText (z : designator) : string :=
  match z with
  | Zulu => "Z"
  | Numeric negative hr mm => numericZone negative hr mm
  end.

(** seconds east of UTC *)
Definition designatorSeconds (z : designator) : Z :=
  match z with
  | Zulu => 0
  | Numeric negative hr mm =>
      if negative then - ((hr * 60 + mm) * 60) else (hr * 60 + mm) * 60
  end.

Definition validDesignator (z : designator) : bool :=
  match z with
  | Zulu => true
  | Numeric _ hr mm => (0 <=? hr) && (hr <? 24) && (0 <=? mm) && (mm <? 60)
  end.

Definition validClock (hour min sec : Z) : bool :=
  (0 <=? hour) && (hour <? 24) && (0 <=? min) && (min <? 60)
  && (0 <=? sec) && (sec <? 60).

(** [P] on every integer from [lo] up to [lo + 2^k - 1] *)
Fixpoint allIn (k : nat) (lo : Z) (P : Z -> bool) : bool :=
  match k with
  | O => P lo
  | S k' => allIn k' lo P && allIn k' (lo + 2 ^ Z.of_nat k') P
  end.

(** [absDate] after the 400-year cycles are cut off: [y] years are already
    counted and [d] days remain *)
Definition cycleDate (y d : Z) : Z * Z * Z :=
  let n := d / daysPer100Years in
  let n := n - Z.shiftr n 2 in
  let y := y + 100 * n in
  let d := d - daysPer100Years * n in
  let n := d / daysPer4Years in
  let y := y + 4 * n in
  let d := d - daysPer4Years * n in
  let n := d / 365 in
  let n := n - Z.shiftr n 2 in
  let y := y + n in
  let d := d - 365 * n in
  let year := y + 1 in
  let day := d in
  if isLeap year && (day =? 31 + 29 - 1) then (year, 2, 29)
  else
    let day := if isLeap year && (31 + 29 - 1 <? day) then day - 1 else day in
    let month := day / 31 in
    let e := daysBefore (month + 1) in
    let '(month, begin) :=
      if e <=? day then (month + 1, e) else (month, daysBefore month) in
    (year, month + 1, day - begin + 1).

(** the day number [Date] computes from a calendar date *)
Definition dayNumber (year month day : Z) : Z :=
  daysSinceEpoch year + daysBefore (month - 1)
  + (if isLeap year && (3 <=? month) then 1 else 0) + (day - 1).

(** a calendar date as [Parse] accepts it *)
Definition validDate (year month day : Z) : bool :=
  (1 <=? month) && (month <=? 12) && (1 <=? day) && (day <=? daysIn month year).

(** one day of the first 400-year cycle: [absDate] gives a valid date in
    the years 1 to 400 whose day number is that day *)
Definition cycleDay (d : Z) : bool :=
  if d <? daysPer400Years then
    let '(year, month, day) := cycleDate 0 d in
    (1 <=? year) && (year <=? 400) && validDate year month day
    && (dayNumber year month day =? d)
  else true.

End stamp.

(** ** Sample runs *)

Module sample.

Import time errors aws cred.

Definition MST : Location := FixedZone "MST" (-25200).

(** 2006-01-02T15:04:05-07:00 *)
Definition refTime : Time :=
  {| unixSec := 1136239445; nsec := 0; loc := UTC |}.

Definition temporary : Credentials :=
  {| AccessKeyID := "ASIAEXAMPLE"; SecretAccessKey := "secret";
     SessionToken := "token"; Expires := refTime; AccountID := "" |}.

Definition static : Credentials :=
  {| AccessKeyID := "AKIAEXAMPLE"; SecretAccessKey := "secret";
     SessionToken := ""; Expires := refTime; AccountID := "111122223333" |}.

(** 10000-01-01T00:00:00Z *)
Definition year10000 : Time :=
  {| unixSec := 253402300800; nsec := 0; loc := UTC |}.

Definition distant : Credentials :=
  {| AccessKeyID := "ASIAEXAMPLE"; SecretAccessKey := "secret";
     SessionToken := "token"; Expires := year10000; AccountID := "" |}.

(** 2006-01-02T15:04:05.5-07:00, in a zone 30 seconds east of UTC *)
Definition halfPast : Time :=
  {| unixSec := 1136239445; nsec := 500000000; loc := FixedZone "" 30 |}.

Definition identity : GetCallerIdentityOutput :=
  {| Account := Some "123456789012";
     Arn := Some "arn:aws:iam::123456789012:user/dev";
     UserId := Some "AIDAEXAMPLE" |}.

Definition noAccount : GetCallerIdentityOutput :=
  {| Account := None; Arn := None; UserId := None |}.

(** a profile with a region and temporary credentials *)
Definition sso : SDK :=
  {| LoadDefaultConfig := fun _ _ => inr {| Region := "us-east-1" |};
     Retrieve := fun _ => inr temporary;
     GetCallerIdentity := fun _ => inr identity |}.

(** long-lived keys, no region *)
Definition keys : SDK :=
  {| LoadDefaultConfig := fun _ _ => inr {| Region := "" |};
     Retrieve := fun _ => inr static;
     GetCallerIdentity := fun _ => inr identity |}.

(** an identity answer without an account *)
Definition anonymous : SDK :=
  {| LoadDefaultConfig := fun _ _ => inr {| Region := "" |};
     Retrieve := fun _ => inr temporary;
     GetCallerIdentity := fun _ => inr noAccount |}.

Definition noProfile : error := errorString "failed to get shared config profile, dev".
Definition noProvider : error := errorString "failed to refresh cached credentials".
Definition invalidToken : error :=
  wrapError
    "operation error STS: GetCallerIdentity, api error InvalidClientTokenId: invalid token"
    (GenericAPIError "InvalidClientTokenId" "invalid token").
Definition timeout : error := errorString "dial tcp: i/o timeout".

Definition badProfile : SDK :=
  {| LoadDefaultConfig := fun _ _ => inl noProfile;
     Retrieve := fun _ => inr temporary;
     GetCallerIdentity := fun _ => inr identity |}.

Definition badProvider : SDK :=
  {| LoadDefaultConfig := fun _ _ => inr {| Region := "" |};
     Retrieve := fun _ => inl noProvider;
     GetCallerIdentity := fun _ => inr identity |}.

Definition rejected : SDK :=
  {| LoadDefaultConfig := fun _ _ => inr {| Region := "" |};
     Retrieve := fun _ => inr temporary;
     GetCallerIdentity := fun _ => inl invalidToken |}.

Definition unreachable : SDK :=
  {| LoadDefaultConfig := fun _ _ => inr {| Region := "" |};
     Retrieve := fun _ => inr temporary;
     GetCallerIdentity := fun _ => inl timeout |}.




(** an environment as the export command's output leaves it *)
Definition session (expiry : string) : os.Env :=
  <["AWS_ACCESS_KEY_ID" := "X"]>
    (<["AWS_SESSION_TOKEN" := "Y"]>
       (<["AWS_SESSION_EXPIRES_AT" := expiry]> ∅)).

End sample.

(** ** Words of the shell fragment *)

Module word.

(** [P] holds of every byte of [s] *)
Fixpoint all (P : ascii -> bool) (s : string) : bool :=
  match s with
  | EmptyString => true
  | String c s' => P c && all P s'
  end.

(** no byte of [s] is a separator *)
Definition free (sep : ascii -> bool) (s : string) : bool :=
  all (fun c => negb (sep c)) s.

(** a value the shell fragment reads as it is written: no blank and no
    statement terminator in it *)
Definition plain (s : string) : bool :=
  free sh.isBlank s && free sh.isTerminator s.

(** a byte a shell reads as itself in an unquoted word: a letter, a digit
    or one of [_ - . / : + =]; none of them starts an expansion, a
    quotation, a comment, a pattern or an operator *)
Definition safeByte (c : ascii) : bool :=
  let n := GoString.byte c in
  ((65 <=? n) && (n <=? 90)) || ((97 <=? n) && (n <=? 122))
  || ((48 <=? n) && (n <=? 57))
  || Ascii.eqb c "_" || Ascii.eqb c "-" || Ascii.eqb c "." || Ascii.eqb c "/"
  || Ascii.eqb c ":" || Ascii.eqb c "+" || Ascii.eqb c "=".

(** a value made of such bytes only: evaluated unquoted, it is one word and
    stands for itself *)
Definition safe (s : string) : bool := all safeByte s.

(** the bytes [Format] writes in the RFC3339 layout *)
Definition stampByte (c : ascii) : bool :=
  time.isDigitByte c || Ascii.eqb c "-" || Ascii.eqb c "T" || Ascii.eqb c ":"
  || Ascii.eqb c "Z" || Ascii.eqb c "+".

End word.

(** ** What the export command's statements say *)

Module script.

Import aws cred.

(** the variables the export line assigns, with their values, in the order
    of lines 97 to 121; [account] is the account id that line 102 picks *)
Definition assigned (creds : Credentials) (cfg : Config) (account : string)
  : list (string * string) :=
  [ (accessKeyID, AccessKeyID creds);
    (secretAccessKey, SecretAccessKey creds);
    (accountID, account) ]
  ++ (if isEmpty (Region cfg) then []
      else [ (defaultRegion, Region cfg); (region, Region cfg) ])
  ++ (if isEmpty (SessionToken creds) then []
      else [ (sessionToken, SessionToken creds);
             (sessionExpiresAt, time.Format_RFC3339 (Expires creds)) ]).

(** the variables the [unset] lines name, in the order of lines 112 to 126 *)
Definition removed (creds : Credentials) (cfg : Config) : list string :=
  (if isEmpty (Region cfg) then [ defaultRegion; region ] else [])
  ++ (if isEmpty (SessionToken creds) then [ sessionToken; sessionExpiresAt ]
      else []).

(** the account id line 102 picks, when there is one *)
Definition accountOf (creds : Credentials) (data : GetCallerIdentityOutput)
  : option string :=
  if isEmpty (AccountID creds) then Account data else Some (AccountID creds).

(** the environment a script leaves that assigns [assigns] and removes the
    rest of the managed variables *)
Definition settled (assigns : list (string * string)) (env : os.Env)
    (key : string) : option string :=
  match (list_to_map assigns : os.Env) !! key with
  | Some v => Some v
  | None => if bool_decide (key ∈ allVars) then None else env !! key
  end.

(** the five values of a credential set that reach the export line are
    plain words *)
Definition plainValues (creds : Credentials) (cfg : Config) (account : string)
  : Prop :=
  word.plain (AccessKeyID creds) = true
  /\ word.plain (SecretAccessKey creds) = true
  /\ word.plain account = true
  /\ word.plain (Region cfg) = true
  /\ word.plain (SessionToken creds) = true.

(** the five values of a credential set that reach the export line are
    made of bytes that a shell reads as themselves *)
Definition safeValues (creds : Credentials) (cfg : Config) (account : string)
  : Prop :=
  word.safe (AccessKeyID creds) = true
  /\ word.safe (SecretAccessKey creds) = true
  /\ word.safe account = true
  /\ word.safe (Region cfg) = true
  /\ word.safe (SessionToken creds) = true.

End script.

(** ** Errors the SDK wraps *)

Module chain.

Import errors.

(** [err] wrapped once for each text of [msgs], the first outermost *)
Definition wrapAll (msgs : list string) (err : error) : error :=
  foldr wrapError err msgs.

End chain.

(** ** The earlier revision of [main.go]

    The second source file is [main.go] as it was before the clear command
    and the [AWS_REGION] variable were added.  Its [set], [unset],
    [getCallerIdentity] and [expiryCmd] are the current ones word for word
    (the expiry command without its aliases); its root command differs in
    the variables it blanks and in the region statements. *)

Module legacy.

Import GoString os errors aws cred.

(** the variables of the loop of lines 54 to 62 *)
Definition blanked : list string :=
  [ "AWS_ACCOUNT_ID"; "AWS_DEFAULT_REGION"; "AWS_ACCESS_KEY_ID";
    "AWS_SECRET_ACCESS_KEY"; "AWS_SESSION_TOKEN" ].

Definition blankAll (env : Env) : Env :=
  foldl (fun e key => Setenv key "" e) env blanked.

(** lines 79 to 110 *)
Definition statements (creds : Credentials) (cfg : Config)
    (data : GetCallerIdentityOutput) : option (list string * list string) :=
  let unsets : list string := [] in
  let exports :=
    [ set "AWS_ACCESS_KEY_ID" (AccessKeyID creds);
      set "AWS_SECRET_ACCESS_KEY" (SecretAccessKey creds) ] in
  exports ←
    (if negb (isEmpty (AccountID creds)) then
       Some (exports ++ [set "AWS_ACCOUNT_ID" (AccountID creds)])
     else
       account ← Account data;
       Some (exports ++ [set "AWS_ACCOUNT_ID" account]));
  let '(exports, unsets) :=
    if negb (isEmpty (Region cfg)) then
      (exports ++ [set "AWS_DEFAULT_REGION" (Region cfg)], unsets)
    else
      (exports, unsets ++ [unset "AWS_DEFAULT_REGION"]) in
  let '(exports, unsets) :=
    if negb (isEmpty (SessionToken creds)) then
      (exports ++ [ set "AWS_SESSION_TOKEN" (SessionToken creds);
                    set "AWS_SESSION_EXPIRES_AT"
                      (time.Format_RFC3339 (Expires creds)) ],
       unsets)
    else
      (exports,
       unsets ++ [unset "AWS_SESSION_TOKEN"; unset "AWS_SESSION_EXPIRES_AT"]) in
  Some (exports, unsets).

(** [rootCmd.RunE] of the earlier revision; lines 112 to 116 print as the
    current lines 130 to 134 do *)
Definition rootCmd (sdk : SDK) (profile : string) (env : Env) : outcome :=
  let opts := loadOptions profile in
  let env := blankAll env in
  let stop st := {| stdout := ""; result := st; environ := env |} in
  match LoadDefaultConfig sdk env opts with
  | inl err => stop (failed err)
  | inr cfg =>
      match Retrieve sdk cfg with
      | inl err => stop (failed err)
      | inr creds =>
          match getCallerIdentity sdk cfg with
          | inl err => stop (failed err)
          | inr data =>
              match statements creds cfg data with
              | None => stop panicked
              | Some (exports, unsets) =>
                  {| stdout := render exports unsets;
                     result := ok;
                     environ := env |}
              end
          end
      end
  end.

(** [strings.HasPrefix(s, prefix)], decided *)
Fixpoint startsWith (pre s : string) : bool :=
  match pre, s with
  | EmptyString, _ => true
  | String a pre', String b s' => Ascii.eqb a b && startsWith pre' s'
  | String _ _, EmptyString => false
  end.

(** the statements that name [AWS_REGION] *)
Definition namesRegion (statement : string) : bool :=
  startsWith "AWS_REGION=" statement
  || String.eqb statement "unset AWS_REGION;".

End legacy.

(** * Properties *)

Import GoString os errors aws cred.

(** ** Strings *)

#[local] Arguments String.append !_ _ : simpl nomatch.

Lemma append_assoc (a b c : string) : (a +:+ b) +:+ c = a +:+ (b +:+ c).
Proof. induction a as [|x a IH]; simpl; [reflexivity | f_equal; exact IH]. Qed.

Lemma append_empty_r (a : string) : a +:+ "" = a.
Proof. induction a as [|x a IH]; simpl; [reflexivity | f_equal; exact IH]. Qed.

Lemma isEmpty_true (s : string) : isEmpty s = true <-> s = "".
Proof. destruct s; simpl; split; intros H; try reflexivity; discriminate. Qed.

Lemma isEmpty_false (s : string) : isEmpty s = false <-> s <> "".
Proof. destruct s; simpl; split; intros H; try congruence; discriminate. Qed.

Lemma Contains_refl (s : string) : Contains s s.
Proof. exists "", "". simpl. now rewrite append_empty_r. Qed.

Lemma Contains_app_l (s pre sub : string) :
  Contains s sub -> Contains (pre +:+ s) sub.
Proof.
  intros (a & b & ->). exists (pre +:+ a), b. now rewrite append_assoc.
Qed.

Lemma Contains_app_r (s post sub : string) :
  Contains s sub -> Contains (s +:+ post) sub.
Proof.
  intros (a & b & ->). exists a, (b +:+ post).
  now rewrite !append_assoc.
Qed.

(** An element of a slice is a substring of the slice joined. *)
Lemma Join_Contains (elems : list string) (sep x : string) :
  List.In x elems -> Contains (Join elems sep) x.
Proof.
  induction elems as [|y rest IH]; [intros []|].
  intros [-> | Hin].
  - destruct rest; [apply Contains_refl|].
    cbn [Join]. apply Contains_app_r, Contains_refl.
  - destruct rest as [|z rest']; [destruct Hin|].
    cbn [Join]. apply Contains_app_l, Contains_app_l, IH, Hin.
Qed.



(** ** The export command, step by step *)

(** A run in which the three SDK calls succeed and the account id is there
    to read prints the two slices and returns nil. *)
Lemma rootCmd_resolved sdk profile env cfg creds data exports unsets :
  resolved sdk profile env cfg creds data ->
  statements creds cfg data = Some (exports, unsets) ->
  rootCmd sdk profile env =
    {| stdout := render exports unsets; result := ok;
       environ := blankAll env |}.
Proof.
  intros (Hcfg & Hcreds & Hdata) Hst. unfold rootCmd.
  rewrite Hcfg, Hcreds. unfold getCallerIdentity. rewrite Hdata, Hst.
  reflexivity.
Qed.

(** The text printed shows every statement of both slices. *)
Lemma render_Contains_export exports unsets e :
  List.In e exports -> Contains (render exports unsets) e.
Proof.
  intros Hin. unfold render.
  assert (Contains ("export " +:+ Join exports " " +:+ LF) e) as H.
  { apply Contains_app_l, Contains_app_r, Join_Contains, Hin. }
  destruct (0 <? length unsets)%nat; [|exact H].
  now apply Contains_app_l, Contains_app_l.
Qed.

Lemma render_Contains_unset exports unsets u :
  List.In u unsets -> Contains (render exports unsets) u.
Proof.
  intros Hin. unfold render.
  destruct unsets as [|u0 rest] eqn:E; [destruct Hin|].
  rewrite <- E in *. replace (0 <? length unsets)%nat with true
    by (subst unsets; reflexivity).
  apply Contains_app_r, Join_Contains, Hin.
Qed.

(** What [statements] puts in the two slices, case by case. *)
Lemma statements_Some creds cfg data exports unsets :
  statements creds cfg data = Some (exports, unsets) ->
  exists account,
    (if isEmpty (AccountID creds) then Account data = Some account
     else account = AccountID creds)
    /\ exports =
         [ set accessKeyID (AccessKeyID creds);
           set secretAccessKey (SecretAccessKey creds);
           set accountID account ]
         ++ (if isEmpty (Region cfg) then []
             else [ set defaultRegion (Region cfg); set region (Region cfg) ])
         ++ (if isEmpty (SessionToken creds) then []
             else [ set sessionToken (SessionToken creds);
                    set sessionExpiresAt
                      (time.Format_RFC3339 (Expires creds)) ])
    /\ unsets =
         (if isEmpty (Region cfg) then [ unset defaultRegion; unset region ]
          else [])
         ++ (if isEmpty (SessionToken creds)
             then [ unset sessionToken; unset sessionExpiresAt ]
             else []).
Proof.
  unfold statements. intros H.
  destruct (isEmpty (AccountID creds)) eqn:Eacc; cbn [negb] in H.
  - destruct (Account data) as [account|] eqn:Edata; [|discriminate].
    exists account. split; [reflexivity|].
    cbn in H.
    destruct (isEmpty (Region cfg)), (isEmpty (SessionToken creds));
      cbn in H; injection H as <- <-; split; reflexivity.
  - exists (AccountID creds). split; [reflexivity|].
    cbn in H.
    destruct (isEmpty (Region cfg)), (isEmpty (SessionToken creds));
      cbn in H; injection H as <- <-; split; reflexivity.
Qed.

Lemma statements_None creds cfg data :
  statements creds cfg data = None <->
  AccountID creds = "" /\ Account data = None.
Proof.
  unfold statements. split.
  - intros H. destruct (isEmpty (AccountID creds)) eqn:Eacc; cbn [negb] in H.
    + apply isEmpty_true in Eacc.
      destruct (Account data); [|now split].
      cbn in H.
      destruct (isEmpty (Region cfg)), (isEmpty (SessionToken creds));
        discriminate.
    + cbn in H.
      destruct (isEmpty (Region cfg)), (isEmpty (SessionToken creds));
        discriminate.
  - intros [Hacc Hdata]. rewrite Hacc, Hdata. reflexivity.
Qed.


(** ** The export command: account id and keys *)



(** ** The export command: the account pointer *)

(** C9: when the credential set's account id is empty the export command
    reads [*data.Account] without a nil check.  In a run whose three SDK
    calls succeed, the command panics exactly when that account id is empty
    and the identity check's account field is nil; a panic prints
    nothing. *)
Theorem account_dereference sdk profile env cfg creds data :
  resolved sdk profile env cfg creds data ->
  (result (rootCmd sdk profile env) = panicked
     <-> AccountID creds = "" /\ Account data = None)
  /\ (result (rootCmd sdk profile env) = ok
     <-> AccountID creds <> "" \/ Account data <> None)
  /\ (result (rootCmd sdk profile env) = panicked ->
      stdout (rootCmd sdk profile env) = "").
Proof.
  intros (Hcfg & Hcreds & Hdata).
  assert (rootCmd sdk profile env =
    match statements creds cfg data with
    | None => {| stdout := ""; result := panicked; environ := blankAll env |}
    | Some (exports, unsets) =>
        {| stdout := render exports unsets; result := ok;
           environ := blankAll env |}
    end) as ->.
  { unfold rootCmd. rewrite Hcfg, Hcreds. unfold getCallerIdentity.
    now rewrite Hdata. }
  destruct (statements creds cfg data) as [[exports unsets]|] eqn:Hst.
  - cbn [result stdout].
    assert (~ (AccountID creds = "" /\ Account data = None)) as Hno.
    { intros H. apply (proj2 (statements_None creds cfg data)) in H.
      congruence. }
    repeat split; try discriminate; try tauto.
    intros _. destruct (AccountID creds) eqn:E; [|left; discriminate].
    right. intros Hnil. apply Hno. now split.
  - cbn [result stdout]. apply (proj1 (statements_None creds cfg data)) in Hst.
    repeat split; try tauto; try discriminate.
Qed.

Lemma account_dereference_witness :
  result (rootCmd sample.anonymous "" ∅) = panicked.
Proof.
  apply (account_dereference sample.anonymous "" ∅ {| Region := "" |}
           sample.temporary sample.noAccount).
  - repeat split.
  - split; reflexivity.
Defined.

(** ** The export command: failures *)

Lemma Errorf_w_Unwrap (pre : string) (err : error) :
  Unwrap (Errorf_w pre err) = Some err
  /\ Error (Errorf_w pre err) = pre +:+ Error err.
Proof. split; reflexivity. Qed.

(** C6: a failure to load the configuration or to retrieve the credentials
    is returned as it is; a failure of the identity check is returned as a
    new error whose text starts with [Invalid credentials: ], followed by the
    code and message of the API error found in the chain, or by the text of
    the error, which it then wraps.  A failing run prints nothing. *)
Theorem export_failures sdk profile env :
  let run := rootCmd sdk profile env in
  let loaded := LoadDefaultConfig sdk (blankAll env) (loadOptions profile) in
  (forall err, loaded = inl err -> result run = failed err)
  /\ (forall cfg err,
        loaded = inr cfg -> Retrieve sdk cfg = inl err ->
        result run = failed err)
  /\ (forall cfg creds err,
        loaded = inr cfg -> Retrieve sdk cfg = inr creds ->
        GetCallerIdentity sdk cfg = inl err ->
        match As_GenericAPIError err with
        | Some (code, message) =>
            result run =
              failed (errorString
                        ("Invalid credentials: " +:+ code +:+ ": " +:+ message))
        | None =>
            result run =
              failed (wrapError ("Invalid credentials: " +:+ Error err) err)
        end)
  /\ (forall err, result run = failed err -> stdout run = "").
Proof.
  cbv zeta. unfold rootCmd, getCallerIdentity. repeat split.
  - intros err ->. reflexivity.
  - intros cfg err -> ->. reflexivity.
  - intros cfg creds err -> -> ->.
    destruct (As_GenericAPIError err) as [[code message]|]; reflexivity.
  - intros err.
    destruct (LoadDefaultConfig sdk _ _) as [e|cfg]; [reflexivity|].
    destruct (Retrieve sdk cfg) as [e|creds]; [reflexivity|].
    destruct (GetCallerIdentity sdk cfg) as [e|data].
    + destruct (As_GenericAPIError e) as [[code message]|]; reflexivity.
    + destruct (statements creds cfg data) as [[exports unsets]|];
        cbn [result]; discriminate.
Qed.

Lemma export_failures_witness :
  result (rootCmd sample.badProfile "dev" ∅) = failed sample.noProfile
  /\ result (rootCmd sample.badProvider "" ∅) = failed sample.noProvider
  /\ result (rootCmd sample.rejected "" ∅) =
       failed (errorString "Invalid credentials: InvalidClientTokenId: invalid token")
  /\ result (rootCmd sample.unreachable "" ∅) =
       failed (wrapError "Invalid credentials: dial tcp: i/o timeout"
                 sample.timeout)
  /\ stdout (rootCmd sample.rejected "" ∅) = "".
Proof.
  split; [|split; [|split; [|split]]].
  - apply (export_failures sample.badProfile "dev" ∅). reflexivity.
  - apply (proj1 (proj2 (export_failures sample.badProvider "" ∅))
             {| Region := "" |}); reflexivity.
  - apply (proj1 (proj2 (proj2 (export_failures sample.rejected "" ∅)))
             {| Region := "" |} sample.temporary sample.invalidToken);
      reflexivity.
  - apply (proj1 (proj2 (proj2 (export_failures sample.unreachable "" ∅)))
             {| Region := "" |} sample.temporary sample.timeout);
      reflexivity.
  - apply (proj2 (proj2 (proj2 (export_failures sample.rejected "" ∅)))
             (errorString "Invalid credentials: InvalidClientTokenId: invalid token")).
    reflexivity.
Defined.

(** ** The expiry command: the order of the checks *)

(** The access key variable is set, to the empty string, and the session
    token variable is unset: the expiry command answers that the credentials
    are not set, not that they are not temporary. *)
Lemma expiry_set_but_empty_key :
  let env : Env := {[ accessKeyID := "" ]} in
  LookupEnv env accessKeyID = Some ""
  /\ LookupEnv env sessionToken = None
  /\ result (expiryCmd time.UTC env) = failed (errorString notSet)
  /\ result (expiryCmd time.UTC env) <> failed (errorString notTemporary).
Proof.
  cbv zeta. split; [reflexivity|]. split; [reflexivity|].
  split; [reflexivity|]. vm_compute. discriminate.
Qed.

(** C1, as the code has it: in every environment the expiry command checks
    the access key, the session token and the expiry variable in that order
    and then parses the expiry, a variable failing its check when it is
    unset or set to the empty string; the first check that fails decides the
    error, and the four messages differ. *)
Theorem expiry_checks_in_order local (env : Env) :
  let run := expiryCmd local env in
  (Getenv env accessKeyID = "" ->
     result run = failed (errorString notSet))
  /\ (Getenv env accessKeyID <> "" -> Getenv env sessionToken = "" ->
      result run = failed (errorString notTemporary))
  /\ (Getenv env accessKeyID <> "" -> Getenv env sessionToken <> "" ->
      Getenv env sessionExpiresAt = "" ->
      result run = failed (errorString notRecorded))
  /\ (Getenv env accessKeyID <> "" -> Getenv env sessionToken <> "" ->
      Getenv env sessionExpiresAt <> "" ->
      time.Parse_RFC3339 local (Getenv env sessionExpiresAt) = None ->
      result run = failed (errorString notProperlyRecorded))
  /\ (forall key,
        Getenv env key = "" <->
        LookupEnv env key = None \/ LookupEnv env key = Some "")
  /\ NoDup [notSet; notTemporary; notRecorded; notProperlyRecorded]
  /\ (forall err, result run = failed err ->
      stdout run = "" /\ exitCode run = 1
      /\ List.In err (errorString <$>
           [notSet; notTemporary; notRecorded; notProperlyRecorded])).
Proof.
  cbv zeta. unfold expiryCmd.
  change "AWS_ACCESS_KEY_ID" with accessKeyID.
  change "AWS_SESSION_TOKEN" with sessionToken.
  change "AWS_SESSION_EXPIRES_AT" with sessionExpiresAt.
  repeat apply conj.
  - intros H. rewrite H. reflexivity.
  - intros Hk H. apply isEmpty_false in Hk. rewrite Hk, H. reflexivity.
  - intros Hk Ht H. apply isEmpty_false in Hk, Ht. rewrite Hk, Ht, H.
    reflexivity.
  - intros Hk Ht He H. apply isEmpty_false in Hk, Ht, He.
    rewrite Hk, Ht, He, H. reflexivity.
  - intros key. unfold Getenv, LookupEnv.
    destruct (env !! key) as [v|]; cbn; split.
    + intros H. right. now rewrite H.
    + intros [H|H]; [discriminate H | now injection H].
    + intros _. now left.
    + reflexivity.
  - apply (bool_decide_unpack _). vm_compute. exact I.
  - intros err. unfold exitCode.
    destruct (isEmpty (Getenv env accessKeyID));
      [intros [= <-]; repeat split; cbn; auto|].
    destruct (isEmpty (Getenv env sessionToken));
      [intros [= <-]; repeat split; cbn; auto|].
    destruct (isEmpty (Getenv env sessionExpiresAt));
      [intros [= <-]; repeat split; cbn; auto|].
    destruct (time.Parse_RFC3339 local _);
      [discriminate | intros [= <-]; repeat split; cbn; auto 6].
Qed.

Lemma expiry_checks_in_order_witness :
  result (expiryCmd time.UTC ∅) = failed (errorString notSet)
  /\ result (expiryCmd time.UTC {[ accessKeyID := "" ]})
     = failed (errorString notSet)
  /\ result (expiryCmd time.UTC
               (<[ accessKeyID := "X" ]> {[ sessionToken := "" ]}))
     = failed (errorString notTemporary)
  /\ result (expiryCmd time.UTC
               (<[ accessKeyID := "X" ]>
                  (<[ sessionToken := "Y" ]> {[ sessionExpiresAt := "" ]})))
     = failed (errorString notRecorded)
  /\ result (expiryCmd time.UTC (sample.session "tomorrow"))
     = failed (errorString notProperlyRecorded).
Proof.
  split; [|split; [|split; [|split]]].
  - apply (proj1 (expiry_checks_in_order time.UTC ∅)). reflexivity.
  - apply (proj1 (expiry_checks_in_order time.UTC {[ accessKeyID := "" ]})).
    reflexivity.
  - apply (proj1 (proj2
      (expiry_checks_in_order time.UTC
         (<[ accessKeyID := "X" ]> {[ sessionToken := "" ]})))).
    + vm_compute. discriminate.
    + reflexivity.
  - apply (proj1 (proj2 (proj2
      (expiry_checks_in_order time.UTC
         (<[ accessKeyID := "X" ]>
            (<[ sessionToken := "Y" ]> {[ sessionExpiresAt := "" ]})))))).
    + vm_compute. discriminate.
    + vm_compute. discriminate.
    + reflexivity.
  - apply (proj1 (proj2 (proj2 (proj2
      (expiry_checks_in_order time.UTC (sample.session "tomorrow")))))).
    + vm_compute. discriminate.
    + vm_compute. discriminate.
    + vm_compute. discriminate.
    + vm_compute. reflexivity.
Defined.

(** A variable that is set to the empty string fails its check like an
    unset one. *)
Lemma expiry_empty_is_not_set local (env : Env) :
  Getenv env accessKeyID = "" ->
  result (expiryCmd local env) = failed (errorString notSet).
Proof.
  intros H. unfold expiryCmd.
  change "AWS_ACCESS_KEY_ID" with accessKeyID. rewrite H. reflexivity.
Qed.

(** ** The export command: the environment before resolution *)

Lemma blankAll_lookup (env : Env) (key : string) :
  blankAll env !! key = if bool_decide (key ∈ allVars) then Some "" else env !! key.
Proof.
  unfold blankAll.
  assert (forall (vars : list string) (e : Env),
    foldl (fun e key => Setenv key "" e) e vars !! key
    = if bool_decide (key ∈ vars) then Some "" else e !! key) as H.
  { induction vars as [|k vars IH]; intros e; [reflexivity|].
    cbn [foldl]. rewrite IH. unfold Setenv.
    destruct (decide (key = k)) as [->|Hne].
    - rewrite lookup_insert_eq.
      rewrite (bool_decide_eq_true_2 (k ∈ k :: vars)) by apply list_elem_of_here.
      now destruct (bool_decide (k ∈ vars)).
    - rewrite lookup_insert_ne by congruence.
      destruct (bool_decide (key ∈ vars)) eqn:E.
      + apply bool_decide_eq_true in E.
        rewrite bool_decide_eq_true_2; [reflexivity|].
        now apply list_elem_of_further.
      + apply bool_decide_eq_false in E.
        rewrite bool_decide_eq_false_2; [reflexivity|].
        intros [?|?]%elem_of_cons; contradiction. }
  apply H.
Qed.

(** The loop leaves the variables set, to the empty string; this holds even
    for a variable that was not set before. *)
Lemma export_sets_not_unsets :
  ~ (forall (env : Env) (key : string),
       List.In key allVars -> LookupEnv (blankAll env) key = None).
Proof.
  intros H. specialize (H ∅ region).
  assert (LookupEnv (blankAll ∅) region = Some "") as E by reflexivity.
  rewrite H in E; [discriminate|]. unfold allVars. simpl. tauto.
Qed.

(** C8, as the code has it: before resolution begins the export command
    sets each of the seven variables to the empty string, so that
    [os.Getenv] reads every one of them as empty, and leaves the other
    variables alone; the SDK is called with that environment, and a run does
    not depend on the values the seven variables had. *)
Theorem export_blanks_managed_variables sdk profile (env : Env) :
  Forall (fun key => LookupEnv (blankAll env) key = Some ""
                     /\ Getenv (blankAll env) key = "") allVars
  /\ (forall key, ~ List.In key allVars ->
      LookupEnv (blankAll env) key = LookupEnv env key)
  /\ environ (rootCmd sdk profile env) = blankAll env
  /\ rootCmd sdk profile env = rootCmd sdk profile (blankAll env)
  /\ (forall env' : Env,
        (forall key, ~ List.In key allVars -> env' !! key = env !! key) ->
        rootCmd sdk profile env' = rootCmd sdk profile env).
Proof.
  assert (forall e e' : Env,
    (forall key, ~ List.In key allVars -> e' !! key = e !! key) ->
    blankAll e' = blankAll e) as Hsame.
  { intros e e' H. apply map_eq. intros key. rewrite !blankAll_lookup.
    destruct (bool_decide (key ∈ allVars)) eqn:E; [reflexivity|].
    apply bool_decide_eq_false in E. apply H.
    now rewrite <- list_elem_of_In. }
  assert (forall e e' : Env, blankAll e' = blankAll e ->
    rootCmd sdk profile e' = rootCmd sdk profile e) as Hrun.
  { intros e e' H. unfold rootCmd. now rewrite H. }
  repeat apply conj.
  - apply Forall_forall. intros key Hin. unfold LookupEnv, Getenv.
    rewrite blankAll_lookup, bool_decide_eq_true_2; [now split|].
    exact Hin.
  - intros key Hnot. unfold LookupEnv. rewrite blankAll_lookup.
    rewrite bool_decide_eq_false_2; [reflexivity|].
    now rewrite list_elem_of_In.
  - unfold rootCmd.
    destruct (LoadDefaultConfig sdk _ _) as [e|cfg]; [reflexivity|].
    destruct (Retrieve sdk cfg) as [e|creds]; [reflexivity|].
    destruct (getCallerIdentity sdk cfg) as [e|data]; [reflexivity|].
    destruct (statements creds cfg data) as [[exports unsets]|]; reflexivity.
  - symmetry. apply Hrun, Hsame. intros key Hnot.
    rewrite blankAll_lookup, bool_decide_eq_false_2; [reflexivity|].
    now rewrite list_elem_of_In.
  - intros env' H. apply Hrun, Hsame, H.
Qed.

Lemma export_blanks_managed_variables_witness :
  rootCmd sample.sso "" {[ region := "eu-west-1" ]} = rootCmd sample.sso "" ∅.
Proof.
  apply (export_blanks_managed_variables sample.sso "" ∅).
  intros key Hnot. apply lookup_singleton_ne. intros <-. apply Hnot.
  unfold allVars. simpl. tauto.
Defined.

(** ** The export command: session token and region *)





(** ** The clear command *)

Lemma clearCmd_stdout (env : Env) :
  stdout (clearCmd env) = Join (unset <$> allVars) LF +:+ LF.
Proof. reflexivity. Qed.

Lemma exec_unsets (names : list string) (env : Env) (key : string) :
  foldl sh.exec env ((fun name => sh.Unset [name]) <$> names) !! key
  = if bool_decide (key ∈ names) then None else env !! key.
Proof.
  revert env. induction names as [|name names IH]; intros env; [reflexivity|].
  cbn [fmap list_fmap foldl sh.exec]. rewrite IH. unfold Unsetenv.
  destruct (decide (key = name)) as [->|Hne].
  - rewrite lookup_delete_eq.
    rewrite (bool_decide_eq_true_2 (name ∈ name :: names))
      by apply list_elem_of_here.
    now destruct (bool_decide (name ∈ names)).
  - rewrite lookup_delete_ne by congruence.
    destruct (bool_decide (key ∈ names)) eqn:E.
    + apply bool_decide_eq_true in E.
      rewrite bool_decide_eq_true_2; [reflexivity|].
      now apply list_elem_of_further.
    + apply bool_decide_eq_false in E.
      rewrite bool_decide_eq_false_2; [reflexivity|].
      intros [?|?]%elem_of_cons; contradiction.
Qed.

(** C7: whatever the environment, the clear command returns nil and prints
    seven statements, one [unset] for each of the seven managed variables;
    evaluating its output leaves all seven unset and no other variable
    changed. *)
Theorem clear_unsets_all (env : Env) :
  let run := clearCmd env in
  result run = ok
  /\ stdout run = Join (unset <$> allVars) LF +:+ LF
  /\ sh.parse (stdout run) = Some ((fun key => sh.Unset [key]) <$> allVars)
  /\ NoDup allVars
  /\ length allVars = 7%nat
  /\ exists env' : Env,
       sh.eval (stdout run) env = Some env'
       /\ Forall (fun key => LookupEnv env' key = None) allVars
       /\ forall key, LookupEnv env' key =
            if bool_decide (key ∈ allVars) then None else LookupEnv env key.
Proof.
  cbv zeta. rewrite clearCmd_stdout.
  assert (sh.parse (Join (unset <$> allVars) LF +:+ LF)
          = Some ((fun key => sh.Unset [key]) <$> allVars)) as Hparse
    by (vm_compute; reflexivity).
  split; [reflexivity|]. split; [reflexivity|]. split; [exact Hparse|].
  split.
  { apply (bool_decide_unpack _). vm_compute. exact I. }
  split; [reflexivity|].
  exists (foldl sh.exec env ((fun key => sh.Unset [key]) <$> allVars)).
  split; [unfold sh.eval; rewrite Hparse; reflexivity|].
  split.
  - apply Forall_forall. intros key Hin. unfold LookupEnv.
    rewrite exec_unsets. now rewrite bool_decide_eq_true_2.
  - intros key. unfold LookupEnv. apply exec_unsets.
Qed.

Example clear_example :
  sh.eval (stdout (clearCmd (sample.session "2006-01-02T15:04:05Z")))
    (<[ "HOME" := "/root" ]> (sample.session "2006-01-02T15:04:05Z"))
  = Some {[ "HOME" := "/root" ]}.
Proof. vm_compute. reflexivity. Qed.

(** ** Integers in a range *)

Import time stamp.

Lemma allIn_spec (k : nat) (lo : Z) (P : Z -> bool) :
  allIn k lo P = true ->
  forall x, lo <= x < lo + 2 ^ Z.of_nat k -> P x = true.
Proof.
  revert lo. induction k as [|k IH]; intros lo H x Hx.
  - cbn in H. change (2 ^ Z.of_nat 0) with 1 in Hx.
    replace x with lo by lia. exact H.
  - cbn [allIn] in H. apply andb_true_iff in H as [Hl Hr].
    rewrite Nat2Z.inj_succ, Z.pow_succ_r in Hx by lia.
    destruct (Z_lt_ge_dec x (lo + 2 ^ Z.of_nat k)) as [Hlt|Hge].
    + apply (IH lo Hl). lia.
    + apply (IH _ Hr). lia.
Qed.

(** ** Digits *)

Lemma digit_cases (d : Z) :
  0 <= d <= 9 ->
  d = 0 \/ d = 1 \/ d = 2 \/ d = 3 \/ d = 4 \/ d = 5 \/ d = 6 \/ d = 7
  \/ d = 8 \/ d = 9.
Proof. lia. Qed.

Lemma isDigitByte_digitChar (d : Z) :
  0 <= d <= 9 -> isDigitByte (digitChar d) = true.
Proof.
  intros H. destruct (digit_cases d H) as [->|[->|[->|[->|[->|[->|[->|[->|[->| ->]]]]]]]]];
    reflexivity.
Qed.

Lemma byte_digitChar (d : Z) : 0 <= d <= 9 -> byte (digitChar d) = 48 + d.
Proof.
  intros H. destruct (digit_cases d H) as [->|[->|[->|[->|[->|[->|[->|[->|[->| ->]]]]]]]]];
    reflexivity.
Qed.

Lemma appendInt_two (x : Z) : 0 <= x < 100 -> appendInt x 2 = two x "".
Proof.
  intros H.
  assert (allIn 7 0 (fun x => if x <? 100
            then String.eqb (appendInt x 2) (two x "") else true) = true) as Hall
    by (vm_compute; reflexivity).
  pose proof (allIn_spec _ _ _ Hall x ltac:(cbn; lia)) as Hx. cbv beta in Hx.
  replace (x <? 100) with true in Hx by (symmetry; apply Z.ltb_lt; lia).
  now apply String.eqb_eq.
Qed.

Lemma appendInt_four (x : Z) : 0 <= x < 10000 -> appendInt x 4 = four x "".
Proof.
  intros H.
  assert (allIn 14 0 (fun x => if x <? 10000
            then String.eqb (appendInt x 4) (four x "") else true) = true) as Hall
    by (vm_compute; reflexivity).
  pose proof (allIn_spec _ _ _ Hall x ltac:(cbn; lia)) as Hx. cbv beta in Hx.
  replace (x <? 10000) with true in Hx by (symmetry; apply Z.ltb_lt; lia).
  now apply String.eqb_eq.
Qed.

Lemma parseUint_two (x lo hi : Z) :
  0 <= x < 100 -> lo <= x <= hi -> parseUint (two x "") lo hi = Some x.
Proof.
  intros Hx Hr. unfold parseUint, two. cbn [digitsValue].
  assert (0 <= x / 10 <= 9 /\ 0 <= x mod 10 <= 9) as [H1 H0]
    by (Z.div_mod_to_equations; lia).
  rewrite !isDigitByte_digitChar, !byte_digitChar by assumption.
  replace ((0 * 10 + (48 + x / 10) - 48) * 10 + (48 + x mod 10) - 48) with x
    by (Z.div_mod_to_equations; lia).
  replace ((x <? lo) || (hi <? x)) with false; [reflexivity|].
  symmetry. apply orb_false_iff. split; apply Z.ltb_ge; lia.
Qed.

Lemma parseUint_four (x lo hi : Z) :
  0 <= x < 10000 -> lo <= x <= hi -> parseUint (four x "") lo hi = Some x.
Proof.
  intros Hx Hr. unfold parseUint, four. cbn [digitsValue].
  assert (0 <= x / 1000 <= 9 /\ 0 <= x / 100 mod 10 <= 9
          /\ 0 <= x / 10 mod 10 <= 9 /\ 0 <= x mod 10 <= 9)
    as (H3 & H2 & H1 & H0) by (Z.div_mod_to_equations; lia).
  rewrite !isDigitByte_digitChar, !byte_digitChar by assumption.
  replace ((((0 * 10 + (48 + x / 1000) - 48) * 10 + (48 + x / 100 mod 10) - 48)
              * 10 + (48 + x / 10 mod 10) - 48) * 10 + (48 + x mod 10) - 48)
    with x by (Z.div_mod_to_equations; lia).
  replace ((x <? lo) || (hi <? x)) with false; [reflexivity|].
  symmetry. apply orb_false_iff. split; apply Z.ltb_ge; lia.
Qed.

(** ** The calendar *)

Lemma isLeap_mod (year : Z) :
  isLeap year =
    (year mod 4 =? 0) && (negb (year mod 100 =? 0) || (year mod 400 =? 0)).
Proof.
  unfold isLeap.
  assert (forall b, b <> 0 -> (Z.rem year b =? 0) = (year mod b =? 0)) as H.
  { intros b Hb. apply eq_true_iff_eq. rewrite !Z.eqb_eq.
    now apply Z.rem_mod_eq_0. }
  now rewrite !H by discriminate.
Qed.

Lemma isLeap_shift (n year : Z) : isLeap (400 * n + year) = isLeap year.
Proof.
  rewrite !isLeap_mod.
  replace ((400 * n + year) mod 4) with (year mod 4)
    by (Z.div_mod_to_equations; lia).
  replace ((400 * n + year) mod 100) with (year mod 100)
    by (Z.div_mod_to_equations; lia).
  replace ((400 * n + year) mod 400) with (year mod 400)
    by (Z.div_mod_to_equations; lia).
  reflexivity.
Qed.

Lemma absDate_cycleDate (abs : Z) :
  absDate abs =
    cycleDate (400 * (abs / secondsPerDay / daysPer400Years))
      (abs / secondsPerDay
       - daysPer400Years * (abs / secondsPerDay / daysPer400Years)).
Proof. reflexivity. Qed.

Lemma cycleDate_shift (n d : Z) :
  cycleDate (400 * n) d =
    let '(year, month, day) := cycleDate 0 d in (400 * n + year, month, day).
Proof.
  unfold cycleDate. cbv zeta.
  set (a := d / daysPer100Years - Z.shiftr (d / daysPer100Years) 2).
  set (d1 := d - daysPer100Years * a).
  set (b := d1 / daysPer4Years).
  set (d2 := d1 - daysPer4Years * b).
  set (c := d2 / 365 - Z.shiftr (d2 / 365) 2).
  set (d3 := d2 - 365 * c).
  replace (400 * n + 100 * a + 4 * b + c + 1)
    with (400 * n + (0 + 100 * a + 4 * b + c + 1)) by ring.
  rewrite isLeap_shift.
  set (year := 0 + 100 * a + 4 * b + c + 1).
  destruct (isLeap year && (d3 =? 31 + 29 - 1)); [reflexivity|].
  set (day := if isLeap year && (31 + 29 - 1 <? d3) then d3 - 1 else d3).
  destruct (daysBefore (day / 31 + 1) <=? day); reflexivity.
Qed.

Lemma daysSinceEpoch_shift (n year : Z) :
  1 <= year <= 400 ->
  daysSinceEpoch (400 * n + year) = daysPer400Years * n + daysSinceEpoch year.
Proof.
  intros H. unfold daysSinceEpoch. cbv zeta.
  replace ((400 * n + year - 1) / 400) with n
    by (Z.div_mod_to_equations; lia).
  replace ((year - 1) / 400) with 0 by (Z.div_mod_to_equations; lia).
  replace (400 * n + year - 1 - 400 * n) with (year - 1 - 400 * 0) by ring.
  unfold daysPer400Years. ring.
Qed.

Lemma cycle_checked : allIn 18 0 cycleDay = true.
Proof. vm_compute. reflexivity. Qed.

(** [absDate] gives a date [Parse] accepts, and [Date] maps it back to the
    day it came from. *)
Lemma absDate_dayNumber (abs : Z) :
  let '(year, month, day) := absDate abs in
  validDate year month day = true
  /\ dayNumber year month day = abs / secondsPerDay.
Proof.
  rewrite absDate_cycleDate, cycleDate_shift.
  set (days := abs / secondsPerDay).
  set (n := days / daysPer400Years).
  set (d := days - daysPer400Years * n).
  assert (0 <= d < daysPer400Years) as Hd.
  { subst d n. unfold daysPer400Years. Z.div_mod_to_equations. lia. }
  pose proof (allIn_spec _ _ _ cycle_checked d) as Hc.
  unfold cycleDay in Hc.
  replace (d <? daysPer400Years) with true in Hc
    by (symmetry; apply Z.ltb_lt; lia).
  destruct (cycleDate 0 d) as [[year month] day].
  specialize (Hc ltac:(unfold daysPer400Years in Hd; cbn; lia)).
  apply andb_true_iff in Hc as [Hc Hnum].
  apply andb_true_iff in Hc as [Hc Hvalid].
  apply andb_true_iff in Hc as [Hlo Hhi].
  apply Z.leb_le in Hlo, Hhi. apply Z.eqb_eq in Hnum.
  split.
  - unfold validDate, daysIn in *. now rewrite isLeap_shift.
  - unfold dayNumber in *. rewrite isLeap_shift.
    rewrite daysSinceEpoch_shift by lia. subst d. lia.
Qed.

Lemma absClock_range (abs : Z) :
  let '(hour, min, sec) := absClock abs in
  0 <= hour < 24 /\ 0 <= min < 60 /\ 0 <= sec < 60
  /\ hour * secondsPerHour + min * secondsPerMinute + sec
     = abs mod secondsPerDay.
Proof.
  unfold absClock, secondsPerDay, secondsPerHour, secondsPerMinute.
  cbv zeta.
  pose proof (Z.mod_pos_bound abs 86400 ltac:(lia)) as H0.
  generalize dependent (abs mod 86400). intros s0 H0.
  pose proof (Z.div_mod s0 3600 ltac:(lia)) as H1.
  pose proof (Z.mod_pos_bound s0 3600 ltac:(lia)) as H2.
  generalize dependent (s0 / 3600). intros h H1.
  replace (s0 - h * 3600) with (s0 mod 3600) by lia.
  generalize dependent (s0 mod 3600). intros s1 H1 H2.
  pose proof (Z.div_mod s1 60 ltac:(lia)) as H3.
  pose proof (Z.mod_pos_bound s1 60 ltac:(lia)) as H4.
  generalize dependent (s1 / 60). intros m H3.
  lia.
Qed.

Lemma validDate_range (year month day : Z) :
  validDate year month day = true -> 1 <= month <= 12 /\ 1 <= day <= 31.
Proof.
  unfold validDate. intros H.
  apply andb_true_iff in H as [H Hd].
  apply andb_true_iff in H as [H H1].
  apply andb_true_iff in H as [Hm1 Hm12].
  apply Z.leb_le in Hd, H1, Hm1, Hm12.
  split; [lia|]. split; [lia|].
  assert (daysIn month year <= 31); [|lia].
  unfold daysIn.
  destruct ((month =? 2) && isLeap year); [lia|].
  assert (month = 1 \/ month = 2 \/ month = 3 \/ month = 4 \/ month = 5
          \/ month = 6 \/ month = 7 \/ month = 8 \/ month = 9 \/ month = 10
          \/ month = 11 \/ month = 12) as Hcases by lia.
  decompose [or] Hcases; subst; vm_compute; discriminate.
Qed.

(** [Date] on fields that need no normalising *)
Lemma Date_unixSec (year month day hour min sec ns : Z) :
  1 <= month <= 12 -> 0 <= hour < 24 -> 0 <= min < 60 -> 0 <= sec < 60 ->
  0 <= ns < 1000000000 ->
  Date year month day hour min sec ns =
    {| unixSec := dayNumber year month day * secondsPerDay
                  + hour * secondsPerHour + min * secondsPerMinute + sec
                  - unixToInternal;
       nsec := ns; loc := UTC |}.
Proof.
  intros Hm Hh Hmi Hs Hns. unfold Date, norm.
  rewrite (Z.div_small (month - 1) 12), (Z.mod_small (month - 1) 12) by lia.
  rewrite (Z.div_small ns), (Z.mod_small ns) by lia.
  cbv beta iota zeta. rewrite !Z.add_0_r.
  rewrite (Z.div_small sec 60), (Z.mod_small sec 60) by lia.
  rewrite !Z.add_0_r.
  rewrite (Z.div_small min 60), (Z.mod_small min 60) by lia.
  rewrite !Z.add_0_r.
  rewrite (Z.div_small hour 24), (Z.mod_small hour 24) by lia.
  rewrite !Z.add_0_r.
  replace (month - 1 + 1) with month by ring.
  unfold dayNumber. f_equal.
  destruct (isLeap year && (3 <=? month)); ring.
Qed.

(** ** Parsing what [Format] writes *)

Lemma zoned_instant (t : Time) (zoneOffset : Z) (local : Location) :
  unixSec (zoned t zoneOffset local) = unixSec t - zoneOffset
  /\ nsec (zoned t zoneOffset local) = nsec t.
Proof.
  unfold zoned, addSec, setLoc. cbn [unixSec nsec].
  destruct (zoffset (local (unixSec t + - zoneOffset)) =? zoneOffset);
    cbn [unixSec nsec]; split; lia.
Qed.

#[local] Opaque digitChar Date daysIn zoned.

(** The fast path of [Parse] on a timestamp in UTC. *)
Lemma parseRFC3339_Z (local : Location) (year month day hour min sec : Z) :
  0 <= year <= 9999 -> validDate year month day = true ->
  0 <= hour < 24 -> 0 <= min < 60 -> 0 <= sec < 60 ->
  parseRFC3339 (dateTime year month day hour min sec "Z") local
  = Some (Date year month day hour min sec 0).
Proof.
  intros Hy Hv Hh Hmi Hs.
  pose proof (validDate_range _ _ _ Hv) as [Hm Hd].
  assert (1 <= day <= daysIn month year) as Hd'.
  { unfold validDate in Hv. apply andb_true_iff in Hv as [Hv H2].
    apply andb_true_iff in Hv as [_ H1]. apply Z.leb_le in H1, H2. lia. }
  unfold parseRFC3339.
  change (String.length (dateTime year month day hour min sec "Z") <? 19)%nat
    with false. cbv iota.
  change (slice (dateTime year month day hour min sec "Z") 0 4)
    with (four year "").
  rewrite parseUint_four by lia. cbn [mbind option_bind].
  change (slice (dateTime year month day hour min sec "Z") 5 7)
    with (two month "").
  rewrite parseUint_two by lia. cbn [mbind option_bind].
  change (slice (dateTime year month day hour min sec "Z") 8 10)
    with (two day "").
  rewrite parseUint_two by lia. cbn [mbind option_bind].
  change (slice (dateTime year month day hour min sec "Z") 11 13)
    with (two hour "").
  rewrite parseUint_two by lia. cbn [mbind option_bind].
  change (slice (dateTime year month day hour min sec "Z") 14 16)
    with (two min "").
  rewrite parseUint_two by lia. cbn [mbind option_bind].
  change (slice (dateTime year month day hour min sec "Z") 17 19)
    with (two sec "").
  rewrite parseUint_two by lia. cbn [mbind option_bind].
  reflexivity.
Qed.

(** The fast path of [Parse] on a timestamp with a numeric zone. *)
Lemma parseRFC3339_numeric (local : Location)
    (year month day hour min sec : Z) (negative : bool) (hr mm : Z) :
  0 <= year <= 9999 -> validDate year month day = true ->
  0 <= hour < 24 -> 0 <= min < 60 -> 0 <= sec < 60 ->
  0 <= hr < 24 -> 0 <= mm < 60 ->
  parseRFC3339
    (dateTime year month day hour min sec (numericZone negative hr mm)) local
  = Some (zoned (Date year month day hour min sec 0)
            (if negative then - ((hr * 60 + mm) * 60) else (hr * 60 + mm) * 60)
            local).
Proof.
  intros Hy Hv Hh Hmi Hs Hhr Hmm.
  pose proof (validDate_range _ _ _ Hv) as [Hm Hd].
  assert (1 <= day <= daysIn month year) as Hd'.
  { unfold validDate in Hv. apply andb_true_iff in Hv as [Hv H2].
    apply andb_true_iff in Hv as [_ H1]. apply Z.leb_le in H1, H2. lia. }
  unfold parseRFC3339.
  set (text := dateTime year month day hour min sec _).
  change (String.length text <? 19)%nat with false. cbv iota.
  change (slice text 0 4) with (four year "").
  rewrite parseUint_four by lia. cbn [mbind option_bind].
  change (slice text 5 7) with (two month "").
  rewrite parseUint_two by lia. cbn [mbind option_bind].
  change (slice text 8 10) with (two day "").
  rewrite parseUint_two by lia. cbn [mbind option_bind].
  change (slice text 11 13) with (two hour "").
  rewrite parseUint_two by lia. cbn [mbind option_bind].
  change (slice text 14 16) with (two min "").
  rewrite parseUint_two by lia. cbn [mbind option_bind].
  change (slice text 17 19) with (two sec "").
  rewrite parseUint_two by lia. cbn [mbind option_bind].
  change (byteIs text 4 "-" && byteIs text 7 "-" && byteIs text 10 "T"
          && byteIs text 13 ":" && byteIs text 16 ":") with true.
  cbv iota. cbn [negb].
  change (drop 19 text) with (numericZone negative hr mm).
  subst text.
  destruct negative.
  - change (byteIs (numericZone true hr mm) 0 ".") with false.
    rewrite andb_false_r, andb_false_l. cbv beta iota zeta.
    change (String.length (numericZone true hr mm) =? 1)%nat with false.
    change (String.length (numericZone true hr mm) =? 6)%nat with true.
    cbn [andb negb].
    change (slice (numericZone true hr mm) 1 3) with (two hr "").
    change (slice (numericZone true hr mm) 4 6) with (two mm "").
    rewrite !parseUint_two by lia. reflexivity.
  - change (byteIs (numericZone false hr mm) 0 ".") with false.
    rewrite andb_false_r, andb_false_l. cbv beta iota zeta.
    change (String.length (numericZone false hr mm) =? 1)%nat with false.
    change (String.length (numericZone false hr mm) =? 6)%nat with true.
    cbn [andb negb].
    change (slice (numericZone false hr mm) 1 3) with (two hr "").
    change (slice (numericZone false hr mm) 4 6) with (two mm "").
    rewrite !parseUint_two by lia. reflexivity.
Qed.

(** ** What [Format] writes *)

Lemma formatISO8601ColonTZ_numeric (offset : Z) :
  offset <> 0 -> -86400 < offset < 86400 ->
  formatISO8601ColonTZ offset =
    numericZone (Z.quot offset 60 <? 0)
      (Z.quot (Z.abs (Z.quot offset 60)) 60)
      (Z.rem (Z.abs (Z.quot offset 60)) 60).
Proof.
  intros Hne Hr. unfold formatISO8601ColonTZ.
  replace (offset =? 0) with false by (symmetry; now apply Z.eqb_neq).
  rewrite !appendInt_two by (Z.quot_rem_to_equations; lia).
  destruct (Z.quot offset 60 <? 0); reflexivity.
Qed.

Lemma Format_RFC3339_dateTime (t : Time) :
  0 <= Year t <= 9999 ->
  Format_RFC3339 t =
    let '(_, offset, abs) := locabs t in
    let '(year, month, day) := absDate abs in
    let '(hour, min, sec) := absClock abs in
    dateTime year month day hour min sec (formatISO8601ColonTZ offset).
Proof.
  unfold Year, Format_RFC3339.
  destruct (locabs t) as [[name offset] abs].
  pose proof (absDate_dayNumber abs) as Hdate.
  pose proof (absClock_range abs) as Hclock.
  destruct (absDate abs) as [[year month] day].
  destruct (absClock abs) as [[hour min] sec].
  destruct Hdate as [Hv _]. destruct Hclock as (Hh & Hmi & Hs & _).
  pose proof (validDate_range _ _ _ Hv) as [Hm Hd].
  intros Hy.
  rewrite appendInt_four by lia.
  rewrite !appendInt_two by lia.
  reflexivity.
Qed.

(** ** From [Format] to [Parse] and back *)

(** A time whose year has four digits and whose zone offset is a whole
    number of minutes, less than a day, is written by [Format] as a text
    that [Parse] reads back as the same second. *)
Lemma Parse_Format_RFC3339 (local : Location) (t : Time) :
  0 <= Year t <= 9999 ->
  Z.rem (Zone_of t).2 60 = 0 ->
  -86400 < (Zone_of t).2 < 86400 ->
  exists t',
    Parse_RFC3339 local (Format_RFC3339 t) = Some t'
    /\ unixSec t' = unixSec t /\ nsec t' = 0.
Proof.
  intros Hy Hrem Hoff. rewrite Format_RFC3339_dateTime by exact Hy.
  unfold Year, Zone_of in *. unfold locabs in *. cbn [snd] in *.
  set (offset := zoffset (loc t (unixSec t))) in *.
  set (abs := unixSec t + offset + unixToInternal) in *.
  pose proof (absDate_dayNumber abs) as Hdate.
  pose proof (absClock_range abs) as Hclock.
  destruct (absDate abs) as [[year month] day].
  destruct (absClock abs) as [[hour min] sec].
  destruct Hdate as [Hv Hnum]. destruct Hclock as (Hh & Hmi & Hs & Hsum).
  pose proof (validDate_range _ _ _ Hv) as [Hm Hd].
  assert (unixSec (Date year month day hour min sec 0) = unixSec t + offset
          /\ nsec (Date year month day hour min sec 0) = 0) as [Hdu Hdn].
  { rewrite Date_unixSec by lia. cbn [unixSec nsec]. split; [|reflexivity].
    rewrite Hnum. unfold secondsPerDay in *.
    pose proof (Z.div_mod abs 86400 ltac:(lia)). subst abs. lia. }
  unfold Parse_RFC3339.
  destruct (Z.eq_dec offset 0) as [H0|Hne].
  - rewrite H0. change (formatISO8601ColonTZ 0) with "Z".
    rewrite parseRFC3339_Z by (assumption || lia).
    eexists. split; [reflexivity|]. split; [lia | exact Hdn].
  - rewrite formatISO8601ColonTZ_numeric by assumption.
    rewrite parseRFC3339_numeric
      by (assumption || (Z.quot_rem_to_equations; lia)).
    eexists. split; [reflexivity|].
    destruct (zoned_instant (Date year month day hour min sec 0)
      (if Z.quot offset 60 <? 0
       then - ((Z.quot (Z.abs (Z.quot offset 60)) 60 * 60
                + Z.rem (Z.abs (Z.quot offset 60)) 60) * 60)
       else (Z.quot (Z.abs (Z.quot offset 60)) 60 * 60
             + Z.rem (Z.abs (Z.quot offset 60)) 60) * 60) local) as [-> ->].
    split; [|exact Hdn]. rewrite Hdu.
    destruct (Z.quot offset 60 <? 0) eqn:E;
      [apply Z.ltb_lt in E | apply Z.ltb_ge in E];
      Z.quot_rem_to_equations; lia.
Qed.

(** [Parse] on a timestamp with whole seconds and either kind of zone *)
Lemma Parse_RFC3339_dateTime (local : Location)
    (year month day hour min sec : Z) (z : designator) :
  0 <= year <= 9999 -> validDate year month day = true ->
  validClock hour min sec = true -> validDesignator z = true ->
  exists t,
    Parse_RFC3339 local
      (dateTime year month day hour min sec (designatorText z)) = Some t
    /\ unixSec t
       = unixSec (Date year month day hour min sec 0) - designatorSeconds z
    /\ nsec t = 0.
Proof.
  intros Hy Hv Hc Hz. unfold validClock in Hc.
  repeat (apply andb_true_iff in Hc as [Hc ?]).
  assert (0 <= hour < 24 /\ 0 <= min < 60 /\ 0 <= sec < 60) as (Hh & Hmi & Hs)
    by lia.
  pose proof (validDate_range _ _ _ Hv) as [Hm Hd].
  assert (nsec (Date year month day hour min sec 0) = 0) as Hns
    by (rewrite Date_unixSec by lia; reflexivity).
  unfold Parse_RFC3339. destruct z as [|negative hr mm].
  - cbn [designatorText designatorSeconds].
    rewrite parseRFC3339_Z by assumption.
    eexists. split; [reflexivity|]. split; [lia | exact Hns].
  - cbn [designatorText designatorSeconds validDesignator] in *.
    repeat (apply andb_true_iff in Hz as [Hz ?]).
    rewrite parseRFC3339_numeric by (assumption || lia).
    eexists. split; [reflexivity|].
    destruct (zoned_instant (Date year month day hour min sec 0)
      (if negative then - ((hr * 60 + mm) * 60) else (hr * 60 + mm) * 60)
      local) as [-> ->].
    split; [reflexivity | exact Hns].
Qed.

(** [Format(RFC1123)] shows the second and the zone, nothing finer. *)
Lemma Format_RFC1123_Local (local : Location) (t u : Time) :
  unixSec t = unixSec u ->
  Format_RFC1123 (Local local t) = Format_RFC1123 (Local local u).
Proof.
  intros H. unfold Format_RFC1123, Local, In, locabs. cbn [unixSec loc].
  now rewrite H.
Qed.

Lemma Parse_RFC3339_empty (local : Location) : Parse_RFC3339 local "" = None.
Proof. reflexivity. Qed.

(** What the expiry command does once its three checks pass. *)
Lemma expiryCmd_parsed (local : Location) (env : Env) (t : Time) :
  Getenv env accessKeyID <> "" -> Getenv env sessionToken <> "" ->
  Parse_RFC3339 local (Getenv env sessionExpiresAt) = Some t ->
  expiryCmd local env =
    {| stdout := Format_RFC1123 (Local local t) +:+ LF; result := ok;
       environ := env |}.
Proof.
  intros Hk Ht Hp. unfold expiryCmd.
  change "AWS_ACCESS_KEY_ID" with accessKeyID.
  change "AWS_SESSION_TOKEN" with sessionToken.
  change "AWS_SESSION_EXPIRES_AT" with sessionExpiresAt.
  apply isEmpty_false in Hk, Ht. rewrite Hk, Ht.
  destruct (Getenv env sessionExpiresAt) eqn:E.
  - rewrite Parse_RFC3339_empty in Hp. discriminate Hp.
  - cbn [isEmpty]. now rewrite Hp.
Qed.

(** ** The expiry command: what it prints *)

(** The text of the RFC1123 layout is not in the RFC3339 layout: the expiry
    command answers it with the error of a badly recorded expiry. *)
Lemma expiry_rejects_RFC1123_text :
  expiryCmd sample.MST (sample.session "Mon, 02 Jan 2006 15:04:05 MST")
  = {| stdout := "";
       result := failed (errorString notProperlyRecorded);
       environ := sample.session "Mon, 02 Jan 2006 15:04:05 MST" |}.
Proof. vm_compute. reflexivity. Qed.

(** The parser takes the layout as the export command writes it and no
    other spelling that RFC 3339 allows: a leap second and lower-case
    letters are refused.  A fraction of a second is accepted and dropped
    from the line printed. *)
Example expiry_layout_limits :
  result (expiryCmd time.UTC (sample.session "2016-12-31T23:59:60Z"))
    = failed (errorString notProperlyRecorded)
  /\ result (expiryCmd time.UTC (sample.session "2006-01-02t15:04:05z"))
     = failed (errorString notProperlyRecorded)
  /\ stdout (expiryCmd sample.MST
               (sample.session "2006-01-02T15:04:05.5-07:00"))
     = "Mon, 02 Jan 2006 15:04:05 MST" +:+ LF.
Proof. repeat split; vm_compute; reflexivity. Qed.

(** C4, as the code has it: with the access key variable [X], the session
    token variable [Y] and an expiry variable that holds a timestamp as the
    export command writes it (the RFC3339 layout with a year of four digits,
    a date of the calendar, hours up to 23, minutes and whole seconds up to
    59, upper-case [T], and [Z] or a zone of hours up to 23 and minutes up
    to 59), such as
    [2006-01-02T15:04:05-07:00], the expiry command succeeds and prints that
    instant, converted to the local zone, in the RFC1123 layout. *)
Theorem expiry_prints_local_time (local : Location) (env : Env)
    (year month day hour min sec : Z) (z : designator) :
  Getenv env accessKeyID = "X" ->
  Getenv env sessionToken = "Y" ->
  Getenv env sessionExpiresAt
    = dateTime year month day hour min sec (designatorText z) ->
  0 <= year <= 9999 -> validDate year month day = true ->
  validClock hour min sec = true -> validDesignator z = true ->
  exists t,
    unixSec t
      = unixSec (Date year month day hour min sec 0) - designatorSeconds z
    /\ nsec t = 0
    /\ Equal (Local local t) t
    /\ expiryCmd local env =
         {| stdout := Format_RFC1123 (Local local t) +:+ LF; result := ok;
            environ := env |}.
Proof.
  intros Hk Ht He Hy Hv Hc Hz.
  destruct (Parse_RFC3339_dateTime local _ _ _ _ _ _ _ Hy Hv Hc Hz)
    as (t & Hp & Hu & Hn).
  exists t. split; [exact Hu|]. split; [exact Hn|].
  split; [split; reflexivity|].
  apply expiryCmd_parsed.
  - rewrite Hk. discriminate.
  - rewrite Ht. discriminate.
  - rewrite He. exact Hp.
Qed.

Lemma expiry_prints_local_time_witness :
  stdout (expiryCmd sample.MST (sample.session "2006-01-02T15:04:05-07:00"))
  = "Mon, 02 Jan 2006 15:04:05 MST" +:+ LF.
Proof.
  destruct (expiry_prints_local_time sample.MST
              (sample.session "2006-01-02T15:04:05-07:00")
              2006 1 2 15 4 5 (Numeric true 7 0)
              eq_refl eq_refl eq_refl ltac:(lia) eq_refl eq_refl eq_refl)
    as (t & Hu & _ & _ & Hrun).
  rewrite Hrun. cbn [stdout]. f_equal.
  rewrite (Format_RFC1123_Local sample.MST t sample.refTime); [reflexivity|].
  rewrite Hu. reflexivity.
Defined.

(** ** From the export command to the expiry command *)

(** The export command writes a year of five digits as it is, and the expiry
    command does not read it back. *)
Lemma expiry_rejects_year_10000 :
  statements sample.distant {| Region := "" |} sample.identity
  = Some ([ set accessKeyID "ASIAEXAMPLE"; set secretAccessKey "secret";
            set accountID "123456789012"; set sessionToken "token";
            set sessionExpiresAt "10000-01-01T00:00:00Z" ],
          [ unset defaultRegion; unset region ])
  /\ expiryCmd UTC (sample.session "10000-01-01T00:00:00Z")
     = {| stdout := "";
          result := failed (errorString notProperlyRecorded);
          environ := sample.session "10000-01-01T00:00:00Z" |}.
Proof. split; vm_compute; reflexivity. Qed.

(** A zone offset with seconds is written without them, which moves the
    instant read back by those seconds. *)
Example offset_seconds_are_dropped :
  Format_RFC3339 sample.halfPast = "2006-01-02T22:04:35+00:00"
  /\ (unixSec <$> Parse_RFC3339 UTC (Format_RFC3339 sample.halfPast))
     = Some (unixSec sample.halfPast + 30).
Proof. split; vm_compute; reflexivity. Qed.

(** C10, as the code has it: for a credential set with a session token
    whose expiry time has a year from 0 to 9999 and a zone offset of whole
    minutes, less than a day, the text the export command writes for the
    expiry variable is accepted by the expiry command's parser as the second
    of the expiry time, and the expiry command prints the expiry time in the
    local zone. *)
Theorem export_expiry_round_trip (local : Location) (env : Env)
    creds cfg data exports unsets :
  statements creds cfg data = Some (exports, unsets) ->
  SessionToken creds <> "" ->
  0 <= Year (Expires creds) <= 9999 ->
  Z.rem (Zone_of (Expires creds)).2 60 = 0 ->
  -86400 < (Zone_of (Expires creds)).2 < 86400 ->
  let written := Format_RFC3339 (Expires creds) in
  List.In (set sessionExpiresAt written) exports
  /\ (exists t, Parse_RFC3339 local written = Some t
               /\ unixSec t = unixSec (Expires creds) /\ nsec t = 0)
  /\ (Getenv env accessKeyID <> "" -> Getenv env sessionToken <> "" ->
      Getenv env sessionExpiresAt = written ->
      expiryCmd local env =
        {| stdout := Format_RFC1123 (Local local (Expires creds)) +:+ LF;
           result := ok; environ := env |}).
Proof.
  intros Hst Htok Hy Hrem Hoff. cbv zeta.
  destruct (statements_Some _ _ _ _ _ Hst) as (account & _ & Hex & _).
  destruct (Parse_Format_RFC3339 local (Expires creds) Hy Hrem Hoff)
    as (t & Hp & Hu & Hn).
  split; [|split].
  - apply isEmpty_false in Htok. rewrite Htok in Hex.
    rewrite Hex, !in_app_iff. right. right. simpl. auto.
  - now exists t.
  - intros Hk Ht He.
    rewrite (expiryCmd_parsed local env t Hk Ht) by (rewrite He; exact Hp).
    now rewrite (Format_RFC1123_Local local t (Expires creds) Hu).
Qed.

Lemma export_expiry_round_trip_witness :
  expiryCmd sample.MST (sample.session "2006-01-02T22:04:05Z")
  = {| stdout := "Mon, 02 Jan 2006 15:04:05 MST" +:+ LF; result := ok;
       environ := sample.session "2006-01-02T22:04:05Z" |}.
Proof.
  refine (proj2 (proj2
    (export_expiry_round_trip sample.MST
       (sample.session "2006-01-02T22:04:05Z")
       sample.temporary {| Region := "us-east-1" |} sample.identity _ _
       eq_refl _ _ eq_refl _)) _ _ eq_refl).
  - discriminate.
  - vm_compute. split; discriminate.
  - vm_compute. split; reflexivity.
  - discriminate.
  - discriminate.
Defined.

(** The two commands one after the other: the output of the export command
    is evaluated, and the expiry command runs in the environment it
    leaves. *)
Example export_then_expiry :
  (fun env => stdout (expiryCmd sample.MST env))
    <$> sh.eval (stdout (rootCmd sample.sso "" ∅)) ∅
  = Some ("Mon, 02 Jan 2006 15:04:05 MST" +:+ LF).
Proof. vm_compute. reflexivity. Qed.

(** * The output of the commands in the shell *)

Import word.

#[local] Transparent digitChar Date daysIn zoned.

(** ** Fields and words *)

Lemma all_app (P : ascii -> bool) (a b : string) :
  all P (a +:+ b) = all P a && all P b.
Proof.
  induction a as [|c a IH]; simpl; [reflexivity|].
  now rewrite IH, andb_assoc.
Qed.

Lemma rev_app_append (cur x : string) :
  String.rev_app cur x = String.rev cur +:+ x.
Proof.
  unfold String.rev. revert x. induction cur as [|c cur IH]; intros x.
  - reflexivity.
  - cbn [String.rev_app]. rewrite (IH (String c x)), (IH (String c "")).
    now rewrite append_assoc.
Qed.

Lemma rev_rev_app (a cur : string) :
  String.rev (String.rev_app a cur) = String.rev cur +:+ a.
Proof.
  revert cur. induction a as [|c a IH]; intros cur.
  - cbn [String.rev_app]. now rewrite append_empty_r.
  - cbn [String.rev_app]. rewrite IH. unfold String.rev at 1.
    cbn [String.rev_app]. rewrite rev_app_append, append_assoc. reflexivity.
Qed.

(** Reading a stretch without separators only grows the field. *)
Lemma fields_free (sep : ascii -> bool) (a rest cur : string) :
  free sep a = true ->
  sh.fields sep (a +:+ rest) cur = sh.fields sep rest (String.rev_app a cur).
Proof.
  revert cur. induction a as [|c a IH]; intros cur H; [reflexivity|].
  cbn in H. apply andb_true_iff in H as [Hc Ha].
  simpl. apply negb_true_iff in Hc. rewrite Hc. now apply IH.
Qed.

Lemma fields_cut (sep : ascii -> bool) (a rest cur : string) (c : ascii) :
  free sep a = true -> sep c = true ->
  sh.fields sep (a +:+ String c rest) cur
  = (String.rev cur +:+ a) :: sh.fields sep rest "".
Proof.
  intros Ha Hc. rewrite fields_free by exact Ha.
  cbn [sh.fields]. rewrite Hc. now rewrite rev_rev_app.
Qed.

Lemma fields_end (sep : ascii -> bool) (a cur : string) :
  free sep a = true -> sh.fields sep a cur = [String.rev cur +:+ a].
Proof.
  intros Ha. rewrite <- (append_empty_r a) at 1.
  rewrite fields_free by exact Ha. cbn [sh.fields]. now rewrite rev_rev_app.
Qed.

(** Joining with one separator byte and splitting at it are inverse on
    fields that hold no separator. *)
Lemma fields_Join (sep : ascii -> bool) (c : ascii) (parts : list string) :
  sep c = true -> parts <> [] ->
  Forall (fun p => free sep p = true) parts ->
  sh.fields sep (Join parts (String c "")) "" = parts.
Proof.
  intros Hc Hne Hall. induction Hall as [|p parts Hp Hall IH]; [contradiction|].
  destruct parts as [|q parts].
  - cbn [Join]. now rewrite fields_end.
  - cbn [Join] in *. change (String c "" +:+ ?x) with (String c x).
    rewrite fields_cut by assumption. f_equal. now apply IH.
Qed.

Lemma words_Join (ws : list string) :
  ws <> [] ->
  Forall (fun w => free sh.isBlank w = true /\ w <> "") ws ->
  sh.words (Join ws " ") = ws.
Proof.
  intros Hne Hall. unfold sh.words.
  rewrite (fields_Join sh.isBlank " " ws eq_refl Hne).
  - clear Hne. induction Hall as [|w ws [_ Hw] _ IH]; [reflexivity|].
    rewrite filter_cons_True; [now rewrite IH|].
    destruct w; [contradiction | exact I].
  - eapply Forall_impl; [exact Hall|]. now intros w [H _].
Qed.

(** An assignment is split at the [=] that ends its name. *)
Lemma assignment_set_gen (key val acc : string) :
  free (fun c => Ascii.eqb c "=") key = true ->
  sh.assignment (key +:+ "=" +:+ val) acc
  = Some (String.rev acc +:+ key, val).
Proof.
  revert acc. induction key as [|c key IH]; intros acc H.
  - simpl. now rewrite append_empty_r.
  - cbn in H. apply andb_true_iff in H as [Hc Hk]. apply negb_true_iff in Hc.
    simpl. rewrite Hc, IH by exact Hk. unfold String.rev at 1.
    cbn [String.rev_app]. rewrite rev_app_append, append_assoc. reflexivity.
Qed.

Lemma assignment_set (key val : string) :
  free (fun c => Ascii.eqb c "=") key = true ->
  sh.assignment (set key val) "" = Some (key, val).
Proof. intros H. unfold set. now rewrite assignment_set_gen. Qed.

Lemma free_Join (sep : ascii -> bool) (parts : list string) (s : string) :
  free sep s = true -> Forall (fun p => free sep p = true) parts ->
  free sep (Join parts s) = true.
Proof.
  intros Hs Hall. induction Hall as [|p parts Hp Hall IH]; [reflexivity|].
  destruct parts as [|q parts]; [exact Hp|].
  cbn [Join] in *. unfold free in *. rewrite !all_app, Hp, Hs. exact IH.
Qed.

(** ** The output of the export command as a script *)

(** The [unset] lines in front of a script are read one statement each. *)
Lemma fields_unsets (names : list string) (rest : string) :
  names <> [] ->
  Forall (fun k => free sh.isTerminator k = true) names ->
  sh.fields sh.isTerminator (Join (unset <$> names) LF +:+ LF +:+ rest) ""
  = flat_map (fun k => ["unset " +:+ k; ""]) names
    ++ sh.fields sh.isTerminator rest "".
Proof.
  intros Hne Hall. induction Hall as [|k names Hk Hall IH]; [contradiction|].
  assert (forall x, sh.fields sh.isTerminator (unset k +:+ LF +:+ x) ""
            = ("unset " +:+ k) :: "" :: sh.fields sh.isTerminator x "") as Hone.
  { intros x. unfold unset, LF.
    replace (("unset " +:+ k +:+ ";") +:+ String "010" "" +:+ x)
      with (("unset " +:+ k) +:+ String ";" (String "010" x))
      by (rewrite !append_assoc; reflexivity).
    rewrite fields_cut; [|unfold free in *; rewrite all_app, Hk|]; reflexivity. }
  destruct names as [|k' names].
  - cbn [fmap list_fmap Join flat_map app]. apply Hone.
  - specialize (IH ltac:(discriminate)).
    change (Join (unset <$> k :: k' :: names) LF)
      with (unset k +:+ LF +:+ Join (unset <$> k' :: names) LF).
    rewrite !append_assoc, Hone, IH. reflexivity.
Qed.

Lemma words_unset (k : string) :
  free sh.isBlank k = true -> k <> "" -> sh.words ("unset " +:+ k) = ["unset"; k].
Proof.
  intros Hk Hne. change ("unset " +:+ k) with (Join ["unset"; k] " ").
  apply words_Join; [discriminate|].
  repeat constructor; [discriminate | exact Hk | exact Hne].
Qed.

Lemma words_export (exports : list string) :
  exports <> [] ->
  Forall (fun w => free sh.isBlank w = true /\ w <> "") exports ->
  sh.words ("export " +:+ Join exports " ") = "export" :: exports.
Proof.
  intros Hne Hall.
  replace ("export " +:+ Join exports " ")
    with (Join ("export" :: exports) " ")
    by (destruct exports; [contradiction | reflexivity]).
  apply words_Join; [discriminate|].
  constructor; [split; [reflexivity | discriminate] | exact Hall].
Qed.

Lemma parse_unset_lines (names : list string) (rest : list string)
    (stmts : list sh.stmt) :
  Forall (fun k => plain k = true /\ k <> "") names ->
  mapM sh.parseStmt (filter (fun ws => ws <> []) (sh.words <$> rest))
    = Some stmts ->
  mapM sh.parseStmt
    (filter (fun ws => ws <> [])
       (sh.words <$> (flat_map (fun k => ["unset " +:+ k; ""]) names ++ rest)))
  = Some (((fun k => sh.Unset [k]) <$> names) ++ stmts).
Proof.
  intros Hnames Hrest.
  induction Hnames as [|k names [Hk Hkne] Hnames IH]; [exact Hrest|].
  change (flat_map (fun k => ["unset " +:+ k; ""]) (k :: names) ++ rest)
    with (("unset " +:+ k) :: ""
            :: (flat_map (fun k => ["unset " +:+ k; ""]) names ++ rest)).
  rewrite !fmap_cons.
  rewrite words_unset;
    [|unfold plain in Hk; now apply andb_true_iff in Hk as [Hk _] | exact Hkne].
  change (sh.words "") with (@nil string).
  rewrite filter_cons_True by discriminate.
  rewrite filter_cons_False by (intros H; now apply H).
  change (mapM sh.parseStmt (["unset"; k] :: ?l))
    with (y ← sh.parseStmt ["unset"; k]; k ← mapM sh.parseStmt l; mret (y :: k)).
  rewrite IH. reflexivity.
Qed.

(** The text the export command prints is a script of the shell fragment:
    its [unset] statements, then one [export] statement. *)
Lemma parse_render (names exports : list string)
    (assigns : list (string * string)) :
  Forall (fun k => plain k = true /\ k <> "") names ->
  exports <> [] ->
  Forall (fun w => plain w = true /\ w <> "") exports ->
  mapM (fun w => sh.assignment w "") exports = Some assigns ->
  sh.parse (render exports (unset <$> names))
  = Some (((fun k => sh.Unset [k]) <$> names) ++ [sh.Export assigns]).
Proof.
  intros Hnames Hne Hexports Hassigns.
  assert (Forall (fun w => free sh.isBlank w = true /\ w <> "") exports) as Hb.
  { eapply Forall_impl; [exact Hexports|]. intros w [H ?]. split; [|assumption].
    unfold plain in H. now apply andb_true_iff in H as [H _]. }
  assert (free sh.isTerminator ("export " +:+ Join exports " ") = true) as Hline.
  { unfold free. rewrite all_app. cbn [all andb]. simpl.
    apply (free_Join sh.isTerminator exports " " eq_refl).
    eapply Forall_impl; [exact Hexports|]. intros w [H _].
    unfold plain in H. now apply andb_true_iff in H as [_ H]. }
  assert (sh.fields sh.isTerminator ("export " +:+ Join exports " " +:+ LF) ""
          = ["export " +:+ Join exports " "; ""]) as Htail.
  { unfold LF. rewrite <- append_assoc.
    rewrite fields_cut by (exact Hline || reflexivity). reflexivity. }
  assert (mapM sh.parseStmt
            (filter (fun ws => ws <> [])
               (sh.words <$> ["export " +:+ Join exports " "; ""]))
          = Some [sh.Export assigns]) as Hlast.
  { rewrite !fmap_cons. rewrite (words_export exports Hne Hb).
    change (sh.words "") with (@nil string).
    rewrite filter_cons_True by discriminate.
    rewrite filter_cons_False by (intros H; now apply H).
    change (mapM sh.parseStmt [?x])
      with (y ← sh.parseStmt x; k ← Some []; mret (y :: k)).
    cbn [sh.parseStmt]. simpl. rewrite Hassigns. reflexivity. }
  unfold sh.parse, render.
  destruct names as [|k names].
  - cbn [fmap list_fmap length Nat.ltb Nat.leb app]. rewrite Htail. exact Hlast.
  - replace (0 <? length (unset <$> k :: names))%nat with true by reflexivity.
    rewrite fields_unsets; [rewrite Htail|discriminate|].
    + now apply parse_unset_lines.
    + eapply Forall_impl; [exact Hnames|]. intros w [H _].
      unfold plain in H. now apply andb_true_iff in H as [_ H].
Qed.

(** ** The statements of the export command, read back *)

Import script.

Lemma statements_accountOf creds cfg data exports unsets :
  statements creds cfg data = Some (exports, unsets) ->
  exists account,
    accountOf creds data = Some account
    /\ exports = (fun kv => set kv.1 kv.2) <$> assigned creds cfg account
    /\ unsets = unset <$> removed creds cfg.
Proof.
  intros Hst.
  destruct (statements_Some _ _ _ _ _ Hst) as (account & Hacc & -> & ->).
  exists account. unfold accountOf, assigned, removed.
  split; [destruct (isEmpty (AccountID creds)); congruence|].
  split; destruct (isEmpty (Region cfg)), (isEmpty (SessionToken creds));
    reflexivity.
Qed.

Lemma assigned_read creds cfg account :
  mapM (fun w => sh.assignment w "")
    ((fun kv => set kv.1 kv.2) <$> assigned creds cfg account)
  = Some (assigned creds cfg account).
Proof.
  unfold assigned.
  destruct (isEmpty (Region cfg)), (isEmpty (SessionToken creds));
    cbn [app fmap list_fmap fst snd mapM];
    rewrite !assignment_set by reflexivity; reflexivity.
Qed.

Lemma managed_once creds cfg account :
  (assigned creds cfg account).*1 ++ removed creds cfg ≡ₚ allVars.
Proof.
  unfold assigned, removed, allVars.
  destruct (isEmpty (Region cfg)), (isEmpty (SessionToken creds));
    cbn [app fmap list_fmap fst];
    apply (bool_decide_unpack _); vm_compute; exact I.
Qed.

(** ** Plain words *)

Lemma all_impl (P Q : ascii -> bool) (s : string) :
  (forall c, P c = true -> Q c = true) -> all P s = true -> all Q s = true.
Proof.
  intros HPQ. induction s as [|c s IH]; [reflexivity|]. cbn [all].
  intros [Hc Hs]%andb_true_iff. now rewrite (HPQ c Hc), IH.
Qed.

Lemma plain_app (a b : string) :
  plain a = true -> plain b = true -> plain (a +:+ b) = true.
Proof.
  unfold plain, free. rewrite !all_app.
  intros [-> ->]%andb_true_iff [-> ->]%andb_true_iff. reflexivity.
Qed.

Lemma stampByte_plain (s : string) : all stampByte s = true -> plain s = true.
Proof.
  intros H. unfold plain, free. apply andb_true_iff. split;
    (eapply all_impl; [|exact H]); intros c Hc;
    destruct c as [[] [] [] [] [] [] [] []]; (reflexivity || discriminate Hc).
Qed.

Lemma utoa_stamp (room : nat) (u : Z) (acc : string) :
  all stampByte acc = true -> all stampByte (utoa room u acc) = true.
Proof.
  revert u acc. induction room as [|room IH]; intros u acc Hacc; [exact Hacc|].
  cbn [utoa].
  assert (all stampByte (String (digitChar (u mod 10)) acc) = true) as H.
  { cbn [all]. rewrite Hacc, andb_true_r. unfold stampByte.
    rewrite isDigitByte_digitChar; [reflexivity|].
    pose proof (Z.mod_pos_bound u 10 ltac:(lia)). lia. }
  destruct (u <? 10); [exact H | now apply IH].
Qed.

Lemma zeros_stamp (n : nat) : all stampByte (zeros n) = true.
Proof. induction n as [|n IH]; [reflexivity | exact IH]. Qed.

Lemma appendInt_stamp (x : Z) (width : nat) :
  all stampByte (appendInt x width) = true.
Proof.
  unfold appendInt. rewrite !all_app, zeros_stamp, utoa_stamp by reflexivity.
  now destruct (x <? 0).
Qed.

(** [Format] in the RFC3339 layout writes one plain word, whatever the
    time. *)
Lemma Format_RFC3339_plain (t : Time) : plain (Format_RFC3339 t) = true.
Proof.
  apply stampByte_plain. unfold Format_RFC3339.
  destruct (locabs t) as [[name offset] abs].
  destruct (absDate abs) as [[year month] day].
  destruct (absClock abs) as [[hour min] sec].
  rewrite !all_app, !appendInt_stamp. cbn [all andb].
  unfold formatISO8601ColonTZ. destruct (offset =? 0); [reflexivity|].
  rewrite !all_app, !appendInt_stamp.
  now destruct (Z.quot offset 60 <? 0).
Qed.

Lemma set_plain (key val : string) :
  plain key = true -> key <> "" -> plain val = true ->
  plain (set key val) = true /\ set key val <> "".
Proof.
  intros Hk Hne Hv. split.
  - unfold set. apply plain_app; [exact Hk|]. now apply plain_app.
  - unfold set. destruct key; [contradiction | discriminate].
Qed.

(** A value of safe bytes is a plain word. *)
Lemma safe_plain (s : string) : safe s = true -> plain s = true.
Proof.
  intros H. unfold plain, free. apply andb_true_iff. split;
    (eapply all_impl; [|exact H]); intros c Hc;
    destruct c as [[] [] [] [] [] [] [] []]; (reflexivity || discriminate Hc).
Qed.

Lemma safeValues_plain creds cfg account :
  safeValues creds cfg account -> plainValues creds cfg account.
Proof.
  intros (Hk & Hs & Ha & Hr & Ht).
  repeat split; now apply safe_plain.
Qed.

(** The text [Format] writes in the RFC3339 layout is made of safe bytes. *)
Lemma Format_RFC3339_safe (t : Time) : safe (Format_RFC3339 t) = true.
Proof.
  assert (all stampByte (Format_RFC3339 t) = true) as H.
  { unfold Format_RFC3339.
    destruct (locabs t) as [[name offset] abs].
    destruct (absDate abs) as [[year month] day].
    destruct (absClock abs) as [[hour min] sec].
    rewrite !all_app, !appendInt_stamp. cbn [all andb].
    unfold formatISO8601ColonTZ. destruct (offset =? 0); [reflexivity|].
    rewrite !all_app, !appendInt_stamp.
    now destruct (Z.quot offset 60 <? 0). }
  unfold safe. eapply all_impl; [|exact H]. intros c Hc.
  destruct c as [[] [] [] [] [] [] [] []]; (reflexivity || discriminate Hc).
Qed.

(** ** Evaluating the output of the export command *)

Lemma exec_assigns (assigns : list (string * string)) (env : Env)
    (key : string) :
  NoDup assigns.*1 ->
  foldl (fun e kv => Setenv kv.1 kv.2 e) env assigns !! key
  = match (list_to_map assigns : Env) !! key with
    | Some v => Some v
    | None => env !! key
    end.
Proof.
  revert env. induction assigns as [|[k v] assigns IH]; intros env Hnd.
  - cbn. now rewrite lookup_empty.
  - cbn [fmap list_fmap fst] in Hnd. apply NoDup_cons in Hnd as [Hk Hnd].
    cbn [foldl list_to_map foldr fst snd]. rewrite IH by exact Hnd.
    unfold Setenv. cbn [fst snd].
    destruct (decide (key = k)) as [->|Hne].
    + rewrite lookup_insert_eq.
      rewrite (not_elem_of_list_to_map_1 assigns k Hk).
      now rewrite lookup_insert_eq.
    + rewrite !lookup_insert_ne by congruence.
      reflexivity.
Qed.

Lemma statements_of_account creds cfg data account :
  accountOf creds data = Some account ->
  statements creds cfg data
  = Some ((fun kv => set kv.1 kv.2) <$> assigned creds cfg account,
          unset <$> removed creds cfg).
Proof.
  unfold accountOf, statements, assigned, removed.
  destruct (isEmpty (AccountID creds)); cbn [negb].
  - intros ->. cbn [mbind option_bind].
    destruct (isEmpty (Region cfg)), (isEmpty (SessionToken creds)); reflexivity.
  - intros [= <-].
    destruct (isEmpty (Region cfg)), (isEmpty (SessionToken creds)); reflexivity.
Qed.

Lemma assigned_plain creds cfg account :
  plainValues creds cfg account ->
  Forall (fun w => plain w = true /\ w <> "")
    ((fun kv => set kv.1 kv.2) <$> assigned creds cfg account).
Proof.
  intros (Hk & Hs & Ha & Hr & Ht). unfold assigned.
  pose proof (Format_RFC3339_plain (Expires creds)) as He.
  destruct (isEmpty (Region cfg)), (isEmpty (SessionToken creds));
    cbn [app fmap list_fmap fst snd];
    repeat (apply Forall_cons; split;
            [apply set_plain;
             solve [ reflexivity | assumption
                   | let H := fresh in intros H; vm_compute in H; discriminate H ]|]);
    constructor.
Qed.

Lemma removed_plain creds cfg :
  Forall (fun k => plain k = true /\ k <> "") (removed creds cfg).
Proof.
  unfold removed.
  destruct (isEmpty (Region cfg)), (isEmpty (SessionToken creds));
    cbn [app];
    repeat (apply Forall_cons; split;
            [split; [reflexivity
                    | let H := fresh in intros H; vm_compute in H; discriminate H]|]);
    constructor.
Qed.

Lemma assigned_NoDup creds cfg account :
  NoDup (assigned creds cfg account).*1.
Proof.
  unfold assigned.
  destruct (isEmpty (Region cfg)), (isEmpty (SessionToken creds));
    cbn [app fmap list_fmap fst];
    apply (bool_decide_unpack _); vm_compute; exact I.
Qed.

(** What a script leaves that removes [removed] and then assigns
    [assigned]. *)
Lemma settled_lookup creds cfg account (shell : Env) (key : string) :
  foldl sh.exec shell
    (((fun k => sh.Unset [k]) <$> removed creds cfg)
       ++ [sh.Export (assigned creds cfg account)]) !! key
  = settled (assigned creds cfg account) shell key.
Proof.
  rewrite foldl_app. cbn [foldl sh.exec].
  rewrite exec_assigns by apply assigned_NoDup.
  unfold settled.
  destruct ((list_to_map (assigned creds cfg account) : Env) !! key) eqn:E;
    [reflexivity|].
  rewrite exec_unsets.
  apply not_elem_of_list_to_map in E.
  assert (key ∈ removed creds cfg <-> key ∈ allVars) as Hiff.
  { rewrite <- (managed_once creds cfg account), elem_of_app. tauto. }
  destruct (bool_decide (key ∈ removed creds cfg)) eqn:B.
  - apply bool_decide_eq_true in B.
    now rewrite bool_decide_eq_true_2 by (apply Hiff; exact B).
  - apply bool_decide_eq_false in B.
    now rewrite bool_decide_eq_false_2 by (rewrite <- Hiff; exact B).
Qed.

(** X1: For values made of safe bytes, the text a successful run prints reads
    as a script of one unset statement for each variable of [removed]
    followed by one export statement with the assignments of [assigned], and
    the variables the two name are the seven managed variables, each
    once. *)
Theorem export_settles_each_variable_once sdk profile env cfg creds data
    account :
  resolved sdk profile env cfg creds data ->
  accountOf creds data = Some account ->
  safeValues creds cfg account ->
  sh.parse (stdout (rootCmd sdk profile env))
  = Some (((fun k => sh.Unset [k]) <$> removed creds cfg)
            ++ [sh.Export (assigned creds cfg account)])
  /\ (assigned creds cfg account).*1 ++ removed creds cfg ≡ₚ allVars
  /\ NoDup ((assigned creds cfg account).*1 ++ removed creds cfg).
Proof.
  intros Hres Hacc Hsafe. apply safeValues_plain in Hsafe.
  rewrite (rootCmd_resolved _ _ _ _ _ _ _ _ Hres
             (statements_of_account _ _ _ _ Hacc)).
  cbn [stdout].
  split; [|split].
  - apply parse_render.
    + apply removed_plain.
    + unfold assigned. discriminate.
    + now apply assigned_plain.
    + apply assigned_read.
  - apply managed_once.
  - rewrite managed_once. apply (bool_decide_unpack _). vm_compute. exact I.
Qed.

Lemma export_settles_each_variable_once_witness :
  sh.parse (stdout (rootCmd sample.keys "" ∅))
  = Some [ sh.Unset ["AWS_DEFAULT_REGION"]; sh.Unset ["AWS_REGION"];
           sh.Unset ["AWS_SESSION_TOKEN"];
           sh.Unset ["AWS_SESSION_EXPIRES_AT"];
           sh.Export [ ("AWS_ACCESS_KEY_ID", "AKIAEXAMPLE");
                       ("AWS_SECRET_ACCESS_KEY", "secret");
                       ("AWS_ACCOUNT_ID", "111122223333") ] ].
Proof.
  destruct (export_settles_each_variable_once sample.keys "" ∅
              {| Region := "" |} sample.static sample.identity
              "111122223333") as (Hparse & _).
  - repeat split.
  - reflexivity.
  - repeat split.
  - exact Hparse.
Defined.

(** X2: Evaluating the output of a successful run, for values made of safe
    bytes: every variable the export line assigns holds its value, every
    other managed variable is unset, and no other variable changes. *)
Theorem export_evaluated sdk profile env cfg creds data account
    (shell : Env) :
  resolved sdk profile env cfg creds data ->
  accountOf creds data = Some account ->
  safeValues creds cfg account ->
  exists shell' : Env,
    sh.eval (stdout (rootCmd sdk profile env)) shell = Some shell'
    /\ forall key,
         shell' !! key = settled (assigned creds cfg account) shell key.
Proof.
  intros Hres Hacc Hplain.
  apply safeValues_plain in Hplain.
  rewrite (rootCmd_resolved _ _ _ _ _ _ _ _ Hres
             (statements_of_account _ _ _ _ Hacc)).
  cbn [stdout]. unfold sh.eval.
  rewrite (parse_render (removed creds cfg) _ (assigned creds cfg account)).
  - eexists. split; [reflexivity|]. intros key. apply settled_lookup.
  - apply removed_plain.
  - unfold assigned. discriminate.
  - now apply assigned_plain.
  - apply assigned_read.
Qed.

Lemma export_evaluated_witness :
  exists shell' : Env,
    sh.eval (stdout (rootCmd sample.keys "" ∅))
      {[ "AWS_SESSION_TOKEN" := "stale"; "HOME" := "/root" ]} = Some shell'
    /\ shell' !! "AWS_ACCESS_KEY_ID" = Some "AKIAEXAMPLE"
    /\ shell' !! "AWS_SESSION_TOKEN" = None
    /\ shell' !! "HOME" = Some "/root".
Proof.
  destruct (export_evaluated sample.keys "" ∅ {| Region := "" |}
              sample.static sample.identity "111122223333"
              {[ "AWS_SESSION_TOKEN" := "stale"; "HOME" := "/root" ]})
    as (shell' & Heval & Hlook).
  - repeat split.
  - reflexivity.
  - repeat split.
  - exists shell'. split; [exact Heval|]. rewrite !Hlook.
    repeat split; reflexivity.
Defined.

(** ** From the export command through the shell to the other commands *)

Lemma settled_assigned creds cfg account (shell : Env) :
  settled (assigned creds cfg account) shell accessKeyID
    = Some (AccessKeyID creds)
  /\ (SessionToken creds <> "" ->
      settled (assigned creds cfg account) shell sessionToken
        = Some (SessionToken creds)
      /\ settled (assigned creds cfg account) shell sessionExpiresAt
        = Some (Format_RFC3339 (Expires creds))).
Proof.
  unfold settled, assigned. split.
  - destruct (isEmpty (Region cfg)), (isEmpty (SessionToken creds));
      reflexivity.
  - intros Hne. apply isEmpty_false in Hne. rewrite Hne.
    destruct (isEmpty (Region cfg)); split; reflexivity.
Qed.

(** X3: The two commands through the shell: when the output of a successful
    run with temporary credentials is evaluated, the expiry command, run in
    the environment that leaves, prints the expiry time of the credential
    set in the local zone. *)
Theorem export_eval_expiry (local : Location) sdk profile env cfg creds data
    account (shell : Env) :
  resolved sdk profile env cfg creds data ->
  accountOf creds data = Some account ->
  safeValues creds cfg account ->
  AccessKeyID creds <> "" -> SessionToken creds <> "" ->
  0 <= Year (Expires creds) <= 9999 ->
  Z.rem (Zone_of (Expires creds)).2 60 = 0 ->
  -86400 < (Zone_of (Expires creds)).2 < 86400 ->
  exists shell' : Env,
    sh.eval (stdout (rootCmd sdk profile env)) shell = Some shell'
    /\ expiryCmd local shell' =
         {| stdout := Format_RFC1123 (Local local (Expires creds)) +:+ LF;
            result := ok; environ := shell' |}.
Proof.
  intros Hres Hacc Hplain Hkey Htok Hy Hrem Hoff.
  apply safeValues_plain in Hplain.
  rewrite (rootCmd_resolved _ _ _ _ _ _ _ _ Hres
             (statements_of_account _ _ _ _ Hacc)).
  cbn [stdout]. unfold sh.eval.
  rewrite (parse_render (removed creds cfg) _ (assigned creds cfg account))
    by (apply removed_plain || (unfold assigned; discriminate)
        || (now apply assigned_plain) || apply assigned_read).
  eexists. split; [reflexivity|].
  set (shell' := foldl sh.exec shell _).
  destruct (settled_assigned creds cfg account shell) as [Hk Ht].
  destruct (Ht Htok) as [Ht1 Ht2].
  destruct (Parse_Format_RFC3339 local (Expires creds) Hy Hrem Hoff)
    as (t & Hp & Hu & _).
  rewrite (expiryCmd_parsed local shell' t).
  - now rewrite (Format_RFC1123_Local local t (Expires creds) Hu).
  - unfold Getenv. subst shell'. now rewrite settled_lookup, Hk.
  - unfold Getenv. subst shell'. now rewrite settled_lookup, Ht1.
  - unfold Getenv. subst shell'. rewrite settled_lookup, Ht2. exact Hp.
Qed.

Lemma export_eval_expiry_witness :
  exists shell' : Env,
    sh.eval (stdout (rootCmd sample.sso "" ∅)) ∅ = Some shell'
    /\ stdout (expiryCmd sample.MST shell')
       = "Mon, 02 Jan 2006 15:04:05 MST" +:+ LF.
Proof.
  destruct (export_eval_expiry sample.MST sample.sso "" ∅
              {| Region := "us-east-1" |} sample.temporary sample.identity
              "123456789012" ∅)
    as (shell' & Heval & Hrun).
  - repeat split.
  - reflexivity.
  - repeat split.
  - discriminate.
  - discriminate.
  - vm_compute. split; discriminate.
  - reflexivity.
  - vm_compute. split; reflexivity.
  - exists shell'. split; [exact Heval|]. rewrite Hrun. reflexivity.
Defined.

Lemma clear_parsed (env : Env) :
  sh.parse (stdout (clearCmd env))
  = Some ((fun key => sh.Unset [key]) <$> allVars).
Proof. vm_compute. reflexivity. Qed.

(** X4: The clear command undoes the export command: evaluating the output of
    a successful run and then the output of the clear command leaves the
    environment that evaluating the output of the clear command alone
    leaves. *)
Theorem clear_undoes_export sdk profile env cfg creds data account
    (shell : Env) :
  resolved sdk profile env cfg creds data ->
  accountOf creds data = Some account ->
  safeValues creds cfg account ->
  exists shell' : Env,
    sh.eval (stdout (rootCmd sdk profile env)) shell = Some shell'
    /\ sh.eval (stdout (clearCmd shell')) shell'
       = sh.eval (stdout (clearCmd shell)) shell
    /\ Forall (fun key => shell' !! key <> None)
         [accessKeyID; secretAccessKey; accountID].
Proof.
  intros Hres Hacc Hplain.
  apply safeValues_plain in Hplain.
  rewrite (rootCmd_resolved _ _ _ _ _ _ _ _ Hres
             (statements_of_account _ _ _ _ Hacc)).
  cbn [stdout]. unfold sh.eval at 1.
  rewrite (parse_render (removed creds cfg) _ (assigned creds cfg account))
    by (apply removed_plain || (unfold assigned; discriminate)
        || (now apply assigned_plain) || apply assigned_read).
  eexists. split; [reflexivity|].
  set (shell' := foldl sh.exec shell _).
  split.
  - unfold sh.eval. rewrite !clear_parsed. cbn [mbind option_bind].
    f_equal. apply map_eq. intros key. rewrite !exec_unsets.
    destruct (bool_decide (key ∈ allVars)) eqn:B; [reflexivity|].
    subst shell'. rewrite settled_lookup. unfold settled. rewrite B.
    destruct (list_to_map _ !! key) eqn:E; [|reflexivity].
    exfalso. apply bool_decide_eq_false in B. apply B.
    rewrite <- (managed_once creds cfg account), elem_of_app. left.
    apply elem_of_list_to_map_2 in E.
    apply list_elem_of_fmap. now exists (key, s).
  - subst shell'. repeat (apply Forall_cons; split);
      [| | |constructor]; rewrite settled_lookup; unfold settled, assigned;
      destruct (isEmpty (Region cfg)), (isEmpty (SessionToken creds));
      discriminate.
Qed.

Lemma clear_undoes_export_witness :
  exists shell' : Env,
    sh.eval (stdout (rootCmd sample.sso "" ∅)) {[ "HOME" := "/root" ]}
      = Some shell'
    /\ sh.eval (stdout (clearCmd shell')) shell' = Some {[ "HOME" := "/root" ]}.
Proof.
  destruct (clear_undoes_export sample.sso "" ∅ {| Region := "us-east-1" |}
              sample.temporary sample.identity "123456789012"
              {[ "HOME" := "/root" ]})
    as (shell' & Heval & Hclear & _).
  - repeat split.
  - reflexivity.
  - repeat split.
  - exists shell'. split; [exact Heval|]. rewrite Hclear.
    vm_compute. reflexivity.
Defined.

(** X5: After the clear command the expiry command finds no credentials:
    whatever the environment held, evaluating the output of the clear
    command leaves one in which the expiry command fails with the first of
    its errors. *)
Theorem clear_then_expiry (local : Location) (env shell : Env) :
  exists shell' : Env,
    sh.eval (stdout (clearCmd env)) shell = Some shell'
    /\ expiryCmd local shell' =
         {| stdout := ""; result := failed (errorString notSet);
            environ := shell' |}
    /\ exitCode (expiryCmd local shell') = 1.
Proof.
  unfold sh.eval. rewrite clear_parsed. cbn [mbind option_bind].
  eexists. split; [reflexivity|].
  set (shell' := foldl sh.exec shell _).
  assert (Getenv shell' accessKeyID = "") as Hk.
  { unfold Getenv. subst shell'. rewrite exec_unsets. reflexivity. }
  assert (expiryCmd local shell' =
            {| stdout := ""; result := failed (errorString notSet);
               environ := shell' |}) as Hrun.
  { unfold expiryCmd. change "AWS_ACCESS_KEY_ID" with accessKeyID.
    now rewrite Hk. }
  split; [exact Hrun|]. now rewrite Hrun.
Qed.

(** X6: After an export of credentials without a session token the expiry
    command reports that they are not temporary, even when the environment
    held a session token and an expiry before: the output unsets both. *)
Theorem export_static_then_expiry (local : Location) sdk profile env cfg
    creds data account (shell : Env) :
  resolved sdk profile env cfg creds data ->
  accountOf creds data = Some account ->
  safeValues creds cfg account ->
  AccessKeyID creds <> "" -> SessionToken creds = "" ->
  exists shell' : Env,
    sh.eval (stdout (rootCmd sdk profile env)) shell = Some shell'
    /\ shell' !! sessionToken = None
    /\ shell' !! sessionExpiresAt = None
    /\ result (expiryCmd local shell') = failed (errorString notTemporary).
Proof.
  intros Hres Hacc Hplain Hkey Htok.
  apply safeValues_plain in Hplain.
  rewrite (rootCmd_resolved _ _ _ _ _ _ _ _ Hres
             (statements_of_account _ _ _ _ Hacc)).
  cbn [stdout]. unfold sh.eval.
  rewrite (parse_render (removed creds cfg) _ (assigned creds cfg account))
    by (apply removed_plain || (unfold assigned; discriminate)
        || (now apply assigned_plain) || apply assigned_read).
  eexists. split; [reflexivity|].
  set (shell' := foldl sh.exec shell _).
  assert (shell' !! sessionToken = None /\ shell' !! sessionExpiresAt = None)
    as [Ht He].
  { subst shell'. rewrite !settled_lookup. unfold settled, assigned.
    apply isEmpty_true in Htok. rewrite Htok.
    destruct (isEmpty (Region cfg)); split; reflexivity. }
  assert (Getenv shell' accessKeyID = AccessKeyID creds) as Hk.
  { unfold Getenv. subst shell'. rewrite settled_lookup.
    now rewrite (proj1 (settled_assigned creds cfg account shell)). }
  split; [exact Ht|]. split; [exact He|].
  unfold expiryCmd.
  change "AWS_ACCESS_KEY_ID" with accessKeyID.
  change "AWS_SESSION_TOKEN" with sessionToken.
  rewrite Hk. apply isEmpty_false in Hkey. rewrite Hkey.
  unfold Getenv at 1. rewrite Ht. reflexivity.
Qed.

Lemma export_static_then_expiry_witness :
  exists shell' : Env,
    sh.eval (stdout (rootCmd sample.keys "" ∅))
      (sample.session "2006-01-02T15:04:05Z") = Some shell'
    /\ result (expiryCmd UTC shell') = failed (errorString notTemporary).
Proof.
  destruct (export_static_then_expiry UTC sample.keys "" ∅ {| Region := "" |}
              sample.static sample.identity "111122223333"
              (sample.session "2006-01-02T15:04:05Z"))
    as (shell' & Heval & _ & _ & Hrun).
  - repeat split.
  - reflexivity.
  - repeat split.
  - discriminate.
  - reflexivity.
  - exists shell'. now split.
Defined.

(** ** The expiry command: when it succeeds and what decides its line *)

(** X7: The expiry command succeeds exactly when the access key and the session
    token read as non-empty and the expiry variable parses; it prints
    exactly when it succeeds, and it exits with 0 or 1. *)
Theorem expiry_succeeds_iff (local : Location) (env : Env) :
  let run := expiryCmd local env in
  (result run = ok <->
     Getenv env accessKeyID <> "" /\ Getenv env sessionToken <> ""
     /\ is_Some (Parse_RFC3339 local (Getenv env sessionExpiresAt)))
  /\ (stdout run <> "" <-> result run = ok)
  /\ (exitCode run = 0 <-> result run = ok)
  /\ (exitCode run = 1 <-> result run <> ok).
Proof.
  cbv zeta. unfold expiryCmd, exitCode.
  change "AWS_ACCESS_KEY_ID" with accessKeyID.
  change "AWS_SESSION_TOKEN" with sessionToken.
  change "AWS_SESSION_EXPIRES_AT" with sessionExpiresAt.
  assert (forall x : string, x +:+ LF <> "") as Hline
    by (intros [|c x]; discriminate).
  destruct (isEmpty (Getenv env accessKeyID)) eqn:Ek;
    [apply isEmpty_true in Ek | apply isEmpty_false in Ek];
  [|destruct (isEmpty (Getenv env sessionToken)) eqn:Et;
    [apply isEmpty_true in Et | apply isEmpty_false in Et];
  [|destruct (Getenv env sessionExpiresAt) as [|c e] eqn:Ee;
    [rewrite Parse_RFC3339_empty
    |destruct (Parse_RFC3339 local (String c e)) as [t|] eqn:Ep]]];
    cbn [isEmpty result stdout];
    repeat split; intros;
    repeat match goal with
           | H : _ /\ _ |- _ => destruct H
           | H : is_Some None |- _ => destruct H as [? H]; discriminate H
           end;
    try discriminate; try congruence; try tauto; eauto.
Qed.

Lemma expiry_succeeds_iff_witness :
  result (expiryCmd UTC (sample.session "2006-01-02T15:04:05Z")) = ok.
Proof.
  apply (proj1 (expiry_succeeds_iff UTC (sample.session "2006-01-02T15:04:05Z"))).
  split; [vm_compute; discriminate|]. split; [vm_compute; discriminate|].
  vm_compute. eexists. reflexivity.
Defined.

(** X8: The zone a timestamp is recorded in does not show: two environments
    whose expiry variables hold well-formed timestamps of the same instant
    make the expiry command print the same line. *)
Theorem expiry_line_depends_on_instant (local : Location) (env env' : Env)
    (year month day hour min sec : Z) (z : designator)
    (year' month' day' hour' min' sec' : Z) (z' : designator) :
  Getenv env accessKeyID <> "" -> Getenv env sessionToken <> "" ->
  Getenv env' accessKeyID <> "" -> Getenv env' sessionToken <> "" ->
  Getenv env sessionExpiresAt
    = dateTime year month day hour min sec (designatorText z) ->
  Getenv env' sessionExpiresAt
    = dateTime year' month' day' hour' min' sec' (designatorText z') ->
  0 <= year <= 9999 -> validDate year month day = true ->
  validClock hour min sec = true -> validDesignator z = true ->
  0 <= year' <= 9999 -> validDate year' month' day' = true ->
  validClock hour' min' sec' = true -> validDesignator z' = true ->
  unixSec (Date year month day hour min sec 0) - designatorSeconds z
  = unixSec (Date year' month' day' hour' min' sec' 0) - designatorSeconds z' ->
  result (expiryCmd local env) = ok
  /\ result (expiryCmd local env') = ok
  /\ stdout (expiryCmd local env) = stdout (expiryCmd local env').
Proof.
  intros Hk Ht Hk' Ht' He He' Hy Hv Hc Hz Hy' Hv' Hc' Hz' Hsame.
  destruct (Parse_RFC3339_dateTime local _ _ _ _ _ _ _ Hy Hv Hc Hz)
    as (t & Hp & Hu & _).
  destruct (Parse_RFC3339_dateTime local _ _ _ _ _ _ _ Hy' Hv' Hc' Hz')
    as (t' & Hp' & Hu' & _).
  rewrite (expiryCmd_parsed local env t Hk Ht) by (rewrite He; exact Hp).
  rewrite (expiryCmd_parsed local env' t' Hk' Ht') by (rewrite He'; exact Hp').
  cbn [result stdout]. split; [reflexivity|]. split; [reflexivity|].
  f_equal. apply Format_RFC1123_Local. lia.
Qed.

Lemma expiry_line_depends_on_instant_witness :
  stdout (expiryCmd sample.MST (sample.session "2006-01-02T15:04:05-07:00"))
  = stdout (expiryCmd sample.MST (sample.session "2006-01-02T22:04:05Z")).
Proof.
  apply (expiry_line_depends_on_instant sample.MST
           (sample.session "2006-01-02T15:04:05-07:00")
           (sample.session "2006-01-02T22:04:05Z")
           2006 1 2 15 4 5 (Numeric true 7 0) 2006 1 2 22 4 5 Zulu);
    try reflexivity; try (vm_compute; discriminate);
    try (split; discriminate).
Defined.

(** ** The identity check's errors *)

Import chain.

Lemma As_wrapAll (msgs : list string) (err : error) :
  As_GenericAPIError (wrapAll msgs err) = As_GenericAPIError err.
Proof. induction msgs as [|m msgs IH]; [reflexivity | exact IH]. Qed.

(** X9: However many errors the SDK wraps around an API error, the identity
    check reports that error's code and message, and nothing of the
    wrappers. *)
Theorem identity_error_shows_code (sdk : SDK) (cfg : Config)
    (msgs : list string) (code message : string) :
  GetCallerIdentity sdk cfg
    = inl (wrapAll msgs (GenericAPIError code message)) ->
  getCallerIdentity sdk cfg
    = inl (errorString ("Invalid credentials: " +:+ code +:+ ": " +:+ message))
  /\ forall profile env,
       LoadDefaultConfig sdk (blankAll env) (loadOptions profile) = inr cfg ->
       (exists creds, Retrieve sdk cfg = inr creds) ->
       Error <$> (match result (rootCmd sdk profile env) with
                  | failed err => Some err
                  | _ => None
                  end)
       = Some ("Invalid credentials: " +:+ code +:+ ": " +:+ message).
Proof.
  intros H.
  assert (getCallerIdentity sdk cfg
          = inl (errorString
                   ("Invalid credentials: " +:+ code +:+ ": " +:+ message)))
    as Hid.
  { unfold getCallerIdentity. rewrite H, As_wrapAll. reflexivity. }
  split; [exact Hid|].
  intros profile env Hcfg [creds Hcreds]. unfold rootCmd.
  rewrite Hcfg, Hcreds, Hid. reflexivity.
Qed.

Lemma identity_error_shows_code_witness :
  getCallerIdentity sample.rejected {| Region := "" |}
  = inl (errorString "Invalid credentials: InvalidClientTokenId: invalid token").
Proof.
  apply (identity_error_shows_code sample.rejected {| Region := "" |}
           ["operation error STS: GetCallerIdentity, api error InvalidClientTokenId: invalid token"]
           "InvalidClientTokenId" "invalid token").
  reflexivity.
Defined.

(** X10: An error of the identity check starts with [Invalid credentials: ] and
    has no API error in its chain: either it wraps the cause, which has
    none, or it is a new error made from the API error that the cause
    holds.  A successful answer is passed on as it is. *)
Theorem identity_error_shape (sdk : SDK) (cfg : Config) :
  (forall err, getCallerIdentity sdk cfg = inl err ->
     HasPrefix (Error err) "Invalid credentials: "
     /\ As_GenericAPIError err = None
     /\ exists cause,
          GetCallerIdentity sdk cfg = inl cause
          /\ ((Unwrap err = Some cause /\ As_GenericAPIError cause = None)
              \/ (Unwrap err = None /\ is_Some (As_GenericAPIError cause))))
  /\ (forall data, getCallerIdentity sdk cfg = inr data
                   <-> GetCallerIdentity sdk cfg = inr data).
Proof.
  unfold getCallerIdentity. split.
  - intros err.
    destruct (GetCallerIdentity sdk cfg) as [cause|data]; [|discriminate].
    destruct (As_GenericAPIError cause) as [[code message]|] eqn:E.
    + intros [= <-]. split; [|split].
      * eexists. reflexivity.
      * reflexivity.
      * exists cause. split; [reflexivity|]. right. split; [reflexivity|].
        rewrite E. eauto.
    + intros [= <-]. split; [|split].
      * eexists. reflexivity.
      * exact E.
      * exists cause. split; [reflexivity|]. left. now split.
  - intros data. destruct (GetCallerIdentity sdk cfg) as [cause|data'].
    + destruct (As_GenericAPIError cause) as [[code message]|];
        split; discriminate.
    + reflexivity.
Qed.

Lemma identity_error_shape_witness :
  HasPrefix
    (Error (wrapError "Invalid credentials: dial tcp: i/o timeout"
              sample.timeout))
    "Invalid credentials: ".
Proof.
  apply (proj1 (identity_error_shape sample.unreachable {| Region := "" |})).
  reflexivity.
Defined.

(** ** The earlier revision of the export command *)

(** X11: For the same credential set, the statements of the earlier revision
    are the current ones without those that name [AWS_REGION]: the earlier
    revision never exports or unsets that variable, and it dereferences a
    nil account in the same runs. *)
Theorem legacy_statements_drop_region creds cfg data :
  (forall exports unsets,
     statements creds cfg data = Some (exports, unsets) ->
     legacy.statements creds cfg data
     = Some (List.filter (fun e => negb (legacy.namesRegion e)) exports,
             List.filter (fun u => negb (legacy.namesRegion u)) unsets))
  /\ (statements creds cfg data = None
      <-> legacy.statements creds cfg data = None)
  /\ (forall exports unsets,
        legacy.statements creds cfg data = Some (exports, unsets) ->
        Forall (fun s => legacy.namesRegion s = false) (exports ++ unsets)).
Proof.
  unfold statements, legacy.statements.
  destruct (isEmpty (AccountID creds)); cbn [negb];
    [destruct (Account data); cbn [mbind option_bind]|];
    try (split; [|split]; [discriminate | tauto | discriminate]);
    destruct (isEmpty (Region cfg)), (isEmpty (SessionToken creds));
    cbn [negb app];
    (split; [|split];
     [ intros exports unsets [= <- <-]; reflexivity
     | split; discriminate
     | intros exports unsets [= <- <-]; cbn [app];
       repeat (apply Forall_cons; split; [reflexivity|]); constructor ]).
Qed.

Lemma legacy_statements_drop_region_witness :
  legacy.statements sample.temporary {| Region := "us-east-1" |}
    sample.identity
  = Some ([ "AWS_ACCESS_KEY_ID=ASIAEXAMPLE"; "AWS_SECRET_ACCESS_KEY=secret";
            "AWS_ACCOUNT_ID=123456789012"; "AWS_DEFAULT_REGION=us-east-1";
            "AWS_SESSION_TOKEN=token";
            "AWS_SESSION_EXPIRES_AT=2006-01-02T22:04:05Z" ], []).
Proof.
  rewrite (proj1 (legacy_statements_drop_region sample.temporary
                    {| Region := "us-east-1" |} sample.identity) _ _ eq_refl).
  reflexivity.
Defined.

Lemma legacy_blankAll_lookup (env : Env) (key : string) :
  legacy.blankAll env !! key
  = if bool_decide (key ∈ legacy.blanked) then Some "" else env !! key.
Proof.
  unfold legacy.blankAll. generalize legacy.blanked. intros vars. revert env.
  induction vars as [|k vars IH]; intros env; [reflexivity|].
  cbn [foldl]. rewrite IH. unfold Setenv.
  destruct (decide (key = k)) as [->|Hne].
  - rewrite lookup_insert_eq.
    rewrite (bool_decide_eq_true_2 (k ∈ k :: vars)) by apply list_elem_of_here.
    now destruct (bool_decide (k ∈ vars)).
  - rewrite lookup_insert_ne by congruence.
    destruct (bool_decide (key ∈ vars)) eqn:E.
    + apply bool_decide_eq_true in E.
      rewrite bool_decide_eq_true_2; [reflexivity|].
      now apply list_elem_of_further.
    + apply bool_decide_eq_false in E.
      rewrite bool_decide_eq_false_2; [reflexivity|].
      intros [?|?]%elem_of_cons; contradiction.
Qed.

(** X12: The earlier revision blanks five of the seven variables before
    resolution: [AWS_REGION] and [AWS_SESSION_EXPIRES_AT] keep the values
    they had, and blanking those two as well gives the environment the
    current revision resolves in. *)
Theorem legacy_blanks_five sdk profile (env : Env) :
  environ (legacy.rootCmd sdk profile env) = legacy.blankAll env
  /\ Forall (fun key => legacy.blankAll env !! key = Some "") legacy.blanked
  /\ legacy.blankAll env !! region = env !! region
  /\ legacy.blankAll env !! sessionExpiresAt = env !! sessionExpiresAt
  /\ blankAll env
     = Setenv region "" (Setenv sessionExpiresAt "" (legacy.blankAll env)).
Proof.
  split; [|split; [|split; [|split]]].
  - unfold legacy.rootCmd.
    destruct (LoadDefaultConfig sdk _ _) as [e|cfg]; [reflexivity|].
    destruct (Retrieve sdk cfg) as [e|creds]; [reflexivity|].
    destruct (getCallerIdentity sdk cfg) as [e|data]; [reflexivity|].
    destruct (legacy.statements creds cfg data) as [[exports unsets]|];
      reflexivity.
  - apply Forall_forall. intros key Hin.
    now rewrite legacy_blankAll_lookup, bool_decide_eq_true_2.
  - rewrite legacy_blankAll_lookup. reflexivity.
  - rewrite legacy_blankAll_lookup. reflexivity.
  - apply map_eq. intros key. unfold Setenv.
    rewrite blankAll_lookup.
    destruct (decide (key = region)) as [->|Hr]; [now rewrite lookup_insert_eq|].
    rewrite lookup_insert_ne by congruence.
    destruct (decide (key = sessionExpiresAt)) as [->|He];
      [now rewrite lookup_insert_eq|].
    rewrite lookup_insert_ne by congruence.
    rewrite legacy_blankAll_lookup.
    assert (key ∈ allVars <-> key ∈ legacy.blanked) as Hiff.
    { unfold allVars, legacy.blanked.
      rewrite !elem_of_cons, !elem_of_nil.
      change "AWS_ACCOUNT_ID" with accountID.
      change "AWS_DEFAULT_REGION" with defaultRegion.
      change "AWS_ACCESS_KEY_ID" with accessKeyID.
      change "AWS_SECRET_ACCESS_KEY" with secretAccessKey.
      change "AWS_SESSION_TOKEN" with sessionToken. tauto. }
    destruct (bool_decide (key ∈ allVars)) eqn:B.
    + apply bool_decide_eq_true in B.
      now rewrite bool_decide_eq_true_2 by (apply Hiff; exact B).
    + apply bool_decide_eq_false in B.
      now rewrite bool_decide_eq_false_2 by (rewrite <- Hiff; exact B).
Qed.

(** In the earlier revision a region left in the environment reaches the
    resolution; in the current one it does not. *)
Example legacy_stale_region :
  let fromEnv : SDK :=
    {| LoadDefaultConfig := fun env _ => inr {| Region := Getenv env region |};
       Retrieve := fun _ => inr sample.static;
       GetCallerIdentity := fun _ => inr sample.identity |} in
  Contains (stdout (legacy.rootCmd fromEnv "" {[ region := "eu-west-1" ]}))
    "AWS_DEFAULT_REGION=eu-west-1"
  /\ Contains (stdout (rootCmd fromEnv "" {[ region := "eu-west-1" ]}))
       "unset AWS_DEFAULT_REGION;".
Proof.
  cbv zeta. split.
  - exists ("unset AWS_SESSION_TOKEN;" +:+ LF +:+ "unset AWS_SESSION_EXPIRES_AT;"
            +:+ LF +:+ "export AWS_ACCESS_KEY_ID=AKIAEXAMPLE AWS_SECRET_ACCESS_KEY=secret AWS_ACCOUNT_ID=111122223333 "),
      LF.
    vm_compute. reflexivity.
  - exists "", (LF +:+ "unset AWS_REGION;" +:+ LF +:+ "unset AWS_SESSION_TOKEN;"
                +:+ LF +:+ "unset AWS_SESSION_EXPIRES_AT;" +:+ LF
                +:+ "export AWS_ACCESS_KEY_ID=AKIAEXAMPLE AWS_SECRET_ACCESS_KEY=secret AWS_ACCOUNT_ID=111122223333"
                +:+ LF).
    vm_compute. reflexivity.
Qed.

(** ** The export command: the session token, in the text printed *)



